(** * Skill generator of the MAPI converter: a shallow embedding

    Source: [src/lib/mapi-converter/src/generators/skill.ts].

    Conventions of the embedding.
    - A JavaScript string is a [string] whose characters are read as
      code units below 256 (Latin-1); [toLowerCase] is the Unicode
      lower-casing restricted to that range.
    - A JavaScript object used as a record of named entries
      ([Record<string, T>]) is an association list of its own properties
      in the order of their creation, with distinct keys.  [obj_set] is
      the assignment [o[k] = v] and [obj_get] the lookup of an own
      property; [objectEntries] is the order in which [Object.entries]
      and [Object.keys] list them (array indices first, ascending) and
      [tableGet] is the read [schemas[name]], which also finds what every
      object inherits from [Object.prototype].
    - An optional field [f?: T] is an [option T]; the truthiness tests
      of the source ([if (x)], [x || y]) are written out.
    - JavaScript numbers only flow through the code (constants and a
      declared [minimum]); they are rationals.  The recursion depth is an
      integer: the code starts it at 0 and adds 1.
    - The type declarations ([types.ts]) and the parsers are not among the
      sources.  The records list the fields that [skill.ts] reads; the
      imported functions are the fields of [Externals]. *)

From Stdlib Require Import String Ascii List ZArith QArith Bool Arith Lia.
From Stdlib Require Import Permutation.
Import ListNotations.

Set Warnings "-register-all".

Open Scope list_scope.
Open Scope string_scope.

(** ** JavaScript string primitives *)

Module Js.

Definition code (c : ascii) : nat := nat_of_ascii c.

Definition between (lo hi n : nat) : bool := (lo <=? n)%nat && (n <=? hi)%nat.

(** The classes [[a-z]] and [[A-Z]] of the regular expressions. *)
Definition isLowerAZ (c : ascii) : bool := between 97 122 (code c).
Definition isUpperAZ (c : ascii) : bool := between 65 90 (code c).

(** [\w] is [[A-Za-z0-9_]]. *)
Definition isWord (c : ascii) : bool :=
  isLowerAZ c || isUpperAZ c || between 48 57 (code c) || (code c =? 95)%nat.

(** [\s] below 256: tab, line feed, vertical tab, form feed, carriage
    return, space and the no-break space. *)
Definition isSpace (c : ascii) : bool :=
  between 9 13 (code c) || (code c =? 32)%nat || (code c =? 160)%nat.

(** Lower-casing of one Latin-1 code unit: A-Z and the accented capitals
    (all of 192..222 but the multiplication sign 215) move up by 32. *)
Definition lowerChar (c : ascii) : ascii :=
  let n := code c in
  if between 65 90 n || between 192 214 n || between 216 222 n
  then ascii_of_nat (n + 32) else c.

Fixpoint toLowerCase (s : string) : string :=
  match s with
  | EmptyString => EmptyString
  | String c r => String (lowerChar c) (toLowerCase r)
  end.

(** [s] without the prefix [p], when it starts with [p]. *)
Fixpoint dropPrefix (p s : string) : option string :=
  match p, s with
  | EmptyString, _ => Some s
  | String a p', String b s' => if Ascii.eqb a b then dropPrefix p' s' else None
  | String _ _, EmptyString => None
  end.

(** [s.startsWith(p)]. *)
Definition startsWith (s p : string) : bool :=
  match dropPrefix p s with Some _ => true | None => false end.

(** [s.includes(sub)]. *)
Fixpoint includes (s sub : string) : bool :=
  if startsWith s sub then true
  else match s with
       | EmptyString => false
       | String _ r => includes r sub
       end.

(** A string is truthy when it is not empty. *)
Definition truthy (s : string) : bool :=
  match s with EmptyString => false | _ => true end.

(** [x] for an optional string [x?: string] in a condition. *)
Definition truthyO (o : option string) : bool :=
  match o with Some s => truthy s | None => false end.

(** [a || b] on an optional string and a string. *)
Definition orElse (o : option string) (d : string) : string :=
  match o with
  | Some s => if truthy s then s else d
  | None => d
  end.

(** [lines.join(sep)]. *)
Fixpoint join (sep : string) (l : list string) : string :=
  match l with
  | [] => EmptyString
  | [x] => x
  | x :: r => x ++ sep ++ join sep r
  end.

(** [s.split('/').pop()]: what follows the last slash, the whole string
    when there is none.  [acc] is the segment being read. *)
Fixpoint lastSegmentFrom (acc s : string) : string :=
  match s with
  | EmptyString => acc
  | String c r =>
      if Ascii.eqb c "/" then lastSegmentFrom EmptyString r
      else lastSegmentFrom (acc ++ String c EmptyString) r
  end.

Definition lastSegment (s : string) : string := lastSegmentFrom EmptyString s.

(** [s.replace(/([a-z])([A-Z])/g, '$1.$2')]: the scan goes left to right;
    a match consumes both letters and the scan resumes after them. *)
Fixpoint replaceCamel (s : string) : string :=
  match s with
  | EmptyString => EmptyString
  | String c r =>
      match r with
      | EmptyString => String c EmptyString
      | String d r' =>
          if isLowerAZ c && isUpperAZ d
          then String c (String "." (String d (replaceCamel r')))
          else String c (replaceCamel r)
      end
  end.

(** [s.replace(/_/, '.')]: no [g] flag, the first match only. *)
Fixpoint replaceFirstUnderscore (s : string) : string :=
  match s with
  | EmptyString => EmptyString
  | String c r =>
      if Ascii.eqb c "_" then String "." r
      else String c (replaceFirstUnderscore r)
  end.

End Js.

(** ** Operation identifiers *)

(** [normalizeOperationId], skill.ts lines 408-422. *)
Definition normalizeOperationId (operationId : string) : string :=
  if Js.includes operationId "." then Js.toLowerCase operationId
  else
    let normalized := Js.toLowerCase (Js.replaceCamel operationId) in
    Js.replaceFirstUnderscore normalized.

(** The normalization in the words of the specification: a dot goes between
    every lowercase letter and the uppercase letter that follows it. *)
Fixpoint insertDotsAtTransitions (s : string) : string :=
  match s with
  | EmptyString => EmptyString
  | String c r =>
      String c
        (match r with
         | String d _ =>
             if Js.isLowerAZ c && Js.isUpperAZ d
             then String "." (insertDotsAtTransitions r)
             else insertDotsAtTransitions r
         | EmptyString => insertDotsAtTransitions r
         end)
  end.

(** The character [c] occurs in [s]. *)
Fixpoint hasChar (c : ascii) (s : string) : bool :=
  match s with
  | EmptyString => false
  | String d r => Ascii.eqb d c || hasChar c r
  end.

(** Some character of [s] is in the class [f]. *)
Fixpoint anyChar (f : ascii -> bool) (s : string) : bool :=
  match s with
  | EmptyString => false
  | String c r => f c || anyChar f r
  end.

Definition normalizeOperationId_spec (raw : string) : string :=
  if hasChar "." raw then Js.toLowerCase raw
  else Js.replaceFirstUnderscore (Js.toLowerCase (insertDotsAtTransitions raw)).

(** ** JSON values and JavaScript objects *)

Inductive JValue : Type :=
| JNull
| JBool (b : bool)
| JNum (q : Q)
| JStr (s : string)
| JArr (elems : list JValue)
| JObj (fields : list (string * JValue)).

(** [v !== null] is [negb (isNull v)]. *)
Definition isNull (v : JValue) : bool :=
  match v with JNull => true | _ => false end.

(** Truthiness of a value: [null], [false], [0] and the empty string are
    falsy, arrays and objects are truthy. *)
Definition truthyV (v : JValue) : bool :=
  match v with
  | JNull => false
  | JBool b => b
  | JNum q => negb (Qeq_bool q 0)
  | JStr s => Js.truthy s
  | JArr _ => true
  | JObj _ => true
  end.

(** [Object.keys(v).length]: the fields of an object, the indices of an
    array or of a string, nothing for the other values. *)
Definition keyCount (v : JValue) : nat :=
  match v with
  | JObj fields => List.length fields
  | JArr elems => List.length elems
  | JStr s => String.length s
  | _ => 0%nat
  end.

(** The store of an own property: an existing key keeps its place and
    takes the new value, a new key goes last. *)
Fixpoint obj_store {A : Type} (o : list (string * A)) (k : string) (v : A)
  : list (string * A) :=
  match o with
  | [] => [(k, v)]
  | (k', v') :: r =>
      if String.eqb k' k then (k', v) :: r else (k', v') :: obj_store r k v
  end.

(** [o[k] = v] on an object made by [{}] and filled by assignments.  The
    key [__proto__] is the accessor of [Object.prototype]: the assignment
    runs its setter and stores no own property. *)
Definition obj_set {A : Type} (o : list (string * A)) (k : string) (v : A)
  : list (string * A) :=
  if String.eqb k "__proto__" then o else obj_store o k v.

(** The assignment [o[k] = v] adds no key: [k] is [__proto__] or a key
    that [o] has. *)
Definition addsNoKey {A : Type} (o : list (string * A)) (k : string) : bool :=
  String.eqb k "__proto__" || existsb (String.eqb k) (map fst o).

(** The own property [k] of [o], [None] when there is none. *)
Fixpoint obj_get {A : Type} (o : list (string * A)) (k : string) : option A :=
  match o with
  | [] => None
  | (k', v) :: r => if String.eqb k' k then Some v else obj_get r k
  end.

(** The own keys of [o] in the order of their creation. *)
Definition obj_keys {A : Type} (o : list (string * A)) : list string :=
  map fst o.

(** An array index: the canonical decimal text of an integer from 0 to
    2^32 - 2 ([0], or digits that do not start with [0]). *)
Fixpoint digitsValue (acc : N) (s : string) : option N :=
  match s with
  | EmptyString => Some acc
  | String c r =>
      if Js.between 48 57 (Js.code c)
      then digitsValue (acc * 10 + N.of_nat (Js.code c - 48)) r
      else None
  end.

Definition arrayIndex (s : string) : option N :=
  match s with
  | EmptyString => None
  | String c r =>
      if (Js.code c =? 48)%nat
      then match r with EmptyString => Some 0%N | _ => None end
      else match digitsValue 0 s with
           | Some n => if (n <=? 4294967294)%N then Some n else None
           | None => None
           end
  end.

(** The entries whose key is an array index, with the index. *)
Fixpoint indexEntries {A : Type} (o : list (string * A))
  : list (N * (string * A)) :=
  match o with
  | [] => []
  | e :: r =>
      match arrayIndex (fst e) with
      | Some n => (n, e) :: indexEntries r
      | None => indexEntries r
      end
  end.

(** The entries whose key is not an array index, as they come. *)
Fixpoint nameEntries {A : Type} (o : list (string * A)) : list (string * A) :=
  match o with
  | [] => []
  | e :: r =>
      match arrayIndex (fst e) with
      | Some _ => nameEntries r
      | None => e :: nameEntries r
      end
  end.

Fixpoint insertByIndex {A : Type} (x : N * A) (l : list (N * A)) : list (N * A) :=
  match l with
  | [] => [x]
  | y :: r => if (fst x <? fst y)%N then x :: l else y :: insertByIndex x r
  end.

Definition sortByIndex {A : Type} (l : list (N * A)) : list (N * A) :=
  fold_right insertByIndex [] l.

(** [Object.entries(o)] ([Object.keys(o)] for the keys): the array
    indices in ascending order, then the other keys in the order of their
    creation. *)
Definition objectEntries {A : Type} (o : list (string * A)) : list (string * A) :=
  (map snd (sortByIndex (indexEntries o)) ++ nameEntries o)%list.

(** [new Set(l).has(x)] and [l.includes(x)] on strings. *)
Definition has (l : list string) (x : string) : bool :=
  existsb (String.eqb x) l.

(** ** Schemas *)

(** Modelled from the spec: the declaration of [OpenApiSchema] is in
    [types.ts], which is missing.  The fields are those of section 3 of the
    specification, which are the ones [skill.ts] reads. *)
Inductive OpenApiSchema : Type :=
  mkSchema {
    schema_ref : option string;          (* $ref *)
    schema_type : option string;
    schema_properties : option (list (string * OpenApiSchema));
    schema_required : option (list string);
    schema_items : option OpenApiSchema;
    schema_enum : option (list JValue);
    schema_format : option string;
    schema_description : option string;
    schema_example : option JValue;
    schema_minimum : option Q
  }.

(** The table of named schemas, [doc.schemas]. *)
Definition SchemaTable : Type := list (string * OpenApiSchema).

(** The names every object inherits from [Object.prototype]. *)
Definition inheritedNames : list string :=
  ["constructor"; "hasOwnProperty"; "isPrototypeOf"; "propertyIsEnumerable";
   "toLocaleString"; "toString"; "valueOf"; "__proto__";
   "__defineGetter__"; "__defineSetter__"; "__lookupGetter__"; "__lookupSetter__"].

Definition isInherited (name : string) : bool := has inheritedNames name.

(** What the generator reads in an inherited value (a function, or
    [Object.prototype] itself): none of the fields of a schema. *)
Definition inheritedValue : OpenApiSchema :=
  mkSchema None None None None None None None None None None.

(** [schemas[name]]: the own entry; for a name without one, the value the
    table inherits when the name is inherited, and [undefined] ([None])
    otherwise. *)
Definition tableGet (schemas : SchemaTable) (name : string)
  : option OpenApiSchema :=
  match obj_get schemas name with
  | Some s => Some s
  | None => if isInherited name then Some inheritedValue else None
  end.

Definition typeIs (schema : OpenApiSchema) (t : string) : bool :=
  match schema_type schema with
  | Some s => String.eqb s t
  | None => false
  end.

Definition formatIs (schema : OpenApiSchema) (f : string) : bool :=
  match schema_format schema with
  | Some s => String.eqb s f
  | None => false
  end.

(** [schema.required || []]. *)
Definition requiredOf (schema : OpenApiSchema) : list string :=
  match schema_required schema with Some l => l | None => [] end.

(** ** Example synthesis *)

(** The [switch (schema.type)] that ends [generateExampleFromSchema],
    skill.ts lines 763-794. *)
Definition primitiveExample (schema : OpenApiSchema) (propName : option string)
  : JValue :=
  if typeIs schema "string" then
    if formatIs schema "date-time" then JStr "2024-01-15T12:00:00Z"
    else if formatIs schema "date" then JStr "2024-01-15"
    else if formatIs schema "email" then JStr "user@example.com"
    else if formatIs schema "uri" then JStr "https://example.com"
    else
      let lower := Js.toLowerCase (Js.orElse propName "") in
      if Js.truthyO propName && String.eqb lower "role" then JStr "user"
      else if Js.truthyO propName
              && (String.eqb lower "content" || String.eqb lower "text")
      then JStr "Hello, how are you?"
      else if Js.truthyO propName && String.eqb lower "id" then JStr "msg_01XYZ"
      else if Js.truthyO propName && String.eqb lower "name" then JStr "example"
      else if Js.truthyO propName && String.eqb lower "description"
      then JStr "A sample description"
      else JStr "string"
  else if typeIs schema "integer" then
    let lower := Js.toLowerCase (Js.orElse propName "") in
    if Js.truthyO propName && Js.includes lower "token" then JNum 1024
    else if Js.truthyO propName && String.eqb lower "max_tokens" then JNum 1024
    else match schema_minimum schema with
         | Some m => JNum m
         | None => JNum 100
         end
  else if typeIs schema "number" then
    if match propName with
       | Some p => String.eqb (Js.toLowerCase p) "temperature"
       | None => false
       end
    then JNum (7 # 10)
    else match schema_minimum schema with
         | Some m => JNum m
         | None => JNum 1
         end
  else if typeIs schema "boolean" then JBool true
  else JNull.

(** The loop of lines 749-757 over [props], the entries of
    [schema.properties] as [Object.entries] lists them.
    [rec] is the recursive call on a property ([None] when it runs out of
    fuel), [obj] the object built so far. *)
Fixpoint exampleFields
  (rec : OpenApiSchema -> option string -> option JValue)
  (required : list string) (props : list (string * OpenApiSchema))
  (obj : list (string * JValue)) : option (list (string * JValue)) :=
  match props with
  | [] => Some obj
  | (fieldName, propSchema) :: rest =>
      if has required fieldName || (List.length obj <? 5)%nat then
        match rec propSchema (Some fieldName) with
        | None => None
        | Some propExample =>
            if isNull propExample
            then exampleFields rec required rest obj
            else exampleFields rec required rest (obj_set obj fieldName propExample)
        end
      else exampleFields rec required rest obj
  end.

(** [schema.enum && Array.isArray(schema.enum) && schema.enum.length > 0],
    with the first value. *)
Definition firstEnum (schema : OpenApiSchema) : option JValue :=
  match schema_enum schema with
  | Some (v :: _) => Some v
  | _ => None
  end.

(** [generateExampleFromSchema], lines 711-795.  The recursion of the
    source follows [$ref] through the table and is not structural; [fuel]
    bounds the number of nested calls and [None] means it ran out. *)
Fixpoint generateExampleFromSchema_fuel (fuel : nat)
  (schema : OpenApiSchema) (schemas : SchemaTable)
  (depth : Z) (propName : option string) {struct fuel} : option JValue :=
  match fuel with
  | O => None
  | S fuel' =>
      if (3 <? depth)%Z then Some JNull
      else
        match schema_example schema with
        | Some ex => Some ex
        | None =>
            if Js.truthyO (schema_ref schema) then
              let refName := Js.lastSegment (Js.orElse (schema_ref schema) "") in
              match tableGet schemas refName with
              | Some resolvedSchema =>
                  generateExampleFromSchema_fuel fuel' resolvedSchema schemas
                    (depth + 1)%Z (Some refName)
              | None => Some (JObj [])
              end
            else
              match firstEnum schema with
              | Some v => Some v
              | None =>
                  match typeIs schema "array", schema_items schema with
                  | true, Some items =>
                      match generateExampleFromSchema_fuel fuel' items schemas
                              (depth + 1)%Z None with
                      | None => None
                      | Some itemExample =>
                          Some (if truthyV itemExample
                                then JArr [itemExample] else JArr [])
                      end
                  | _, _ =>
                      match typeIs schema "object", schema_properties schema with
                      | _, Some props =>
                          option_map JObj
                            (exampleFields
                               (fun s n =>
                                  generateExampleFromSchema_fuel fuel' s schemas
                                    (depth + 1)%Z n)
                               (requiredOf schema) (objectEntries props) [])
                      | true, None => Some (JObj [])
                      | false, None => Some (primitiveExample schema propName)
                      end
                  end
              end
        end
  end.

(** Nested calls stop past depth 3, so this much fuel is enough. *)
Definition fuelFor (depth : Z) : nat := S (Z.to_nat (4 - depth)).

(** [generateExampleFromSchema(schema, schemas, depth, propName)]. *)
Definition generateExampleFromSchema (schema : OpenApiSchema)
  (schemas : SchemaTable) (depth : Z) (propName : option string) : JValue :=
  match generateExampleFromSchema_fuel (fuelFor depth) schema schemas depth propName with
  | Some v => v
  | None => JNull
  end.

(** ** The intermediate model *)

Definition nl : string := String (ascii_of_nat 10) EmptyString.

(** [meta.auth_scopes]: one scope or an array of scopes. *)
Inductive Scopes : Type :=
| ScopeOne (scope : string)
| ScopeMany (scopes : list string).

(** Modelled from the spec: the declaration of the document metadata is
    missing ([types.ts]); section 3 makes it an open key-value mapping read
    from [key: value] lines, so the values the generator reads are strings
    (one or several for the scopes). *)
Record DocMeta : Type :=
  mkDocMeta {
    meta_version : option string;
    meta_base_url : option string;
    meta_auth : option string;
    meta_auth_header : option string;
    meta_auth_flow : option string;
    meta_auth_scopes : option Scopes;
    meta_auth_docs_url : option string
  }.

(** Modelled from the spec: [cap.meta] of [types.ts] (missing): an
    identifier, a transport string, an auth override and two flags. *)
Record CapabilityMeta : Type :=
  mkCapabilityMeta {
    capmeta_id : string;
    capmeta_transport : string;
    capmeta_auth : option string;
    capmeta_idempotent : option bool;
    capmeta_deprecated : option bool
  }.

(** Modelled from the spec: [ParsedCapability] of [types.ts] (missing), the
    Capability of section 3 with the fields [skill.ts] reads. *)
Record ParsedCapability : Type :=
  mkParsedCapability {
    cap_name : string;
    cap_meta : CapabilityMeta;
    cap_intention : option string;
    cap_authIntention : option string;
    cap_input : option string;
    cap_output : option string;
    cap_logicConstraints : option string;
    cap_errors : option string;
    cap_example : option string;
    cap_rawContent : option string
  }.

(** Modelled from the spec: [ParsedMapiDocument] of [types.ts] (missing),
    the ParsedDocument of section 3. *)
Record ParsedMapiDocument : Type :=
  mkParsedMapiDocument {
    mapi_title : string;
    mapi_description : option string;
    mapi_meta : DocMeta;
    mapi_globalTypes : option string;
    mapi_capabilities : list ParsedCapability
  }.

(** Modelled from the spec: the parameters, request body, responses and
    operations of [types.ts] (missing), as section 3 lists them under
    OpenApiOperation and as [skill.ts] reads them. *)
Record OpenApiParameter : Type :=
  mkOpenApiParameter {
    param_name : string;
    param_in : string;
    param_required : option bool;
    param_schema : option OpenApiSchema;
    param_description : option string
  }.

(** An entry of a [content] map: [{ schema?: ... }]. *)
Record MediaType : Type := mkMediaType { media_schema : option OpenApiSchema }.

Record RequestBody : Type :=
  mkRequestBody {
    body_content : option (list (string * MediaType));
    body_required : option bool
  }.

Record Response : Type :=
  mkResponse {
    response_content : option (list (string * MediaType));
    response_description : option string
  }.

(** A security requirement: scheme names with their scopes. *)
Definition SecurityRequirement : Type := list (string * list string).

Record ParsedOpenApiOperation : Type :=
  mkParsedOpenApiOperation {
    op_operationId : string;
    op_method : string;
    op_path : string;
    op_summary : option string;
    op_description : option string;
    op_parameters : option (list OpenApiParameter);
    op_requestBody : option RequestBody;
    op_responses : option (list (string * Response));
    op_security : option (list SecurityRequirement)
  }.

(** Modelled from the spec: [ParsedOpenApiDocument] of [types.ts] (missing)
    with its [auth] descriptor, section 4.2. *)
Record OpenApiAuth : Type :=
  mkOpenApiAuth {
    auth_type : string;
    auth_flows : option (list (string * JValue))
  }.

Record ParsedOpenApiDocument : Type :=
  mkParsedOpenApiDocument {
    openapi_title : string;
    openapi_description : option string;
    openapi_version : option string;
    openapi_baseUrl : option string;
    openapi_auth : option OpenApiAuth;
    openapi_schemas : SchemaTable;
    openapi_operations : list ParsedOpenApiOperation
  }.

(** Modelled from the spec: [CapabilityIndexEntry] and [SkillOutput] of
    [types.ts] (missing), section 3; the fields are those the generators
    fill in. *)
Record CapabilityIndexEntry : Type :=
  mkCapabilityIndexEntry {
    entry_id : string;
    entry_intentKeywords : list string;
    entry_filePath : string;
    entry_dependencies : list string
  }.

Record SkillOutput : Type :=
  mkSkillOutput {
    skillMd : string;
    common : list (string * string);
    capabilities : list (string * string)
  }.

(** What the generator imports and what the platform provides; none of it
    is in [skill.ts]. *)
Class Externals : Type :=
  {
    (** [extractIntentKeywords(text, id)] of [parsers/mapi.js]. *)
    extractIntentKeywords : string -> string -> list string;
    (** [extractOpenApiIntentKeywords(op)] of [parsers/openapi.js]. *)
    extractOpenApiIntentKeywords : ParsedOpenApiOperation -> list string;
    (** [schemaToTypeScript(schema, name, schemas)] of [parsers/openapi.js]. *)
    schemaToTypeScript : OpenApiSchema -> string -> SchemaTable -> string;
    (** The text of a number in a template string. *)
    numberToString : Q -> string;
    (** [JSON.stringify(value, null, 2)]. *)
    JSON_stringify : JValue -> string
  }.

(** ** Dependencies of a MAPI capability: the scan of the global types *)

(** The longest run of characters of a class at the head of [s], and the
    rest. *)
Fixpoint span (f : ascii -> bool) (s : string) : string * string :=
  match s with
  | EmptyString => (EmptyString, EmptyString)
  | String c r =>
      if f c then let (run, rest) := span f r in (String c run, rest)
      else (EmptyString, s)
  end.

(** [kw\s+(\w+)] at the head of [s]: the matched text.  Both repetitions
    are greedy and their classes are disjoint, so the longest runs are the
    only way to match. *)
Definition matchDeclaration (kw s : string) : option string :=
  match Js.dropPrefix kw s with
  | None => None
  | Some afterKw =>
      let (spaces, afterSpaces) := span Js.isSpace afterKw in
      let (word, _) := span Js.isWord afterSpaces in
      if Js.truthy spaces && Js.truthy word
      then Some (kw ++ spaces ++ word) else None
  end.

(** [/interface\s+(\w+)|type\s+(\w+)/] at the head of [s]. *)
Definition matchTypeDeclaration (s : string) : option string :=
  match matchDeclaration "interface" s with
  | Some m => Some m
  | None => matchDeclaration "type" s
  end.

(** [text.match(/.../g)]: all the matches from left to right; after a
    match the scan resumes at its end, [skip] counts the characters of the
    last match still to pass. *)
Fixpoint matchAllTypeDeclarations (skip : nat) (s : string) : list string :=
  match s with
  | EmptyString => []
  | String _ r =>
      match skip with
      | S k => matchAllTypeDeclarations k r
      | O =>
          match matchTypeDeclaration s with
          | Some m => m :: matchAllTypeDeclarations (String.length m - 1) r
          | None => matchAllTypeDeclarations 0 r
          end
      end
  end.

(** [m.split(/\s+/)]: [cur] is the piece being read, [inSep] tells that the
    last character belonged to a separator. *)
Fixpoint splitSpaces (cur : string) (inSep : bool) (s : string) : list string :=
  match s with
  | EmptyString => [cur]
  | String c r =>
      if Js.isSpace c then
        if inSep then splitSpaces cur true r
        else cur :: splitSpaces EmptyString true r
      else splitSpaces (cur ++ String c EmptyString) false r
  end.

(** [m.split(/\s+/)[1]]; a missing piece is [undefined], which [includes]
    reads as the text "undefined". *)
Definition declaredName (m : string) : string :=
  match nth_error (splitSpaces EmptyString false m) 1 with
  | Some w => w
  | None => "undefined"
  end.

(** ** Shape of the type-description result *)

Record TypeDescription : Type :=
  mkTypeDescription {
    td_type : string;
    td_description : option string
  }.

(** ** The generator *)

Section Generator.

Context {Ext : Externals}.

(** Concatenation of lists of lines; [++] is kept for strings. *)
Local Infix "+++" := (@app string) (right associativity, at level 65).

(** *** The index and the common files *)

Definition commonFileDescription (file : string) : string :=
  if Js.includes file "auth" then "Authentication setup"
  else if Js.includes file "schema" then "Shared type definitions"
  else if Js.includes file "pagination" then "Pagination conventions"
  else "Common definitions".

(** A row of the capabilities table, lines 131-135. *)
Definition indexRow (entry : CapabilityIndexEntry) : string :=
  let keywords := Js.join ", " (firstn 5 (entry_intentKeywords entry)) in
  let joined := Js.join ", " (entry_dependencies entry) in
  let deps := if Js.truthy joined then joined else "-" in
  "| " ++ entry_id entry ++ " | " ++ keywords ++ " | "
       ++ entry_filePath entry ++ " | " ++ deps ++ " |".

(** [lines.push(`key: ${value}`)] under [if (value)]. *)
Definition metaLine (key : string) (value : option string) : list string :=
  if Js.truthyO value then [key ++ ": " ++ Js.orElse value ""] else [].

(** [generateSkillMd], lines 84-139. *)
Definition generateSkillMd (apiName : string) (description : option string)
  (meta : DocMeta) (index : list CapabilityIndexEntry)
  (commonFiles : list string) : string :=
  let header := ["# " ++ apiName; ""] in
  let desc :=
    if Js.truthyO description then [Js.orElse description ""; ""] else [] in
  let metadata :=
    ["~~~meta"]
      +++ metaLine "version" (meta_version meta)
      +++ metaLine "base_url" (meta_base_url meta)
      +++ metaLine "auth" (meta_auth meta)
      +++ ["~~~"; ""] in
  let commons :=
    match commonFiles with
    | [] => []
    | _ =>
        ["## Common Dependencies"; "";
         "| File | Description |"; "|------|-------------|"]
          +++ map (fun file =>
                    "| common/" ++ file ++ " | "
                      ++ commonFileDescription file ++ " |") commonFiles
          +++ [""]
    end in
  let table :=
    ["## Capabilities"; "";
     "| ID | Intent Keywords | File | Dependencies |";
     "|----|-----------------|------|--------------|"]
      +++ map indexRow index
      +++ [""] in
  Js.join nl (header +++ desc +++ metadata +++ commons +++ table).

Definition scopesTruthy (s : Scopes) : bool :=
  match s with
  | ScopeOne scope => Js.truthy scope
  | ScopeMany _ => true
  end.

(** [Array.isArray(x) ? x : [x]]. *)
Definition scopeList (s : Scopes) : list string :=
  match s with
  | ScopeOne scope => [scope]
  | ScopeMany scopes => scopes
  end.

(** [generateAuthFile], lines 144-203.  It is called with an auth scheme
    present; an absent one reads as the text "undefined" in the default
    branch. *)
Definition generateAuthFile (meta : DocMeta) : string :=
  let authType :=
    match meta_auth meta with Some a => a | None => "undefined" end in
  let body :=
    if String.eqb authType "bearer" then
      ["This API uses Bearer token authentication."; "";
       "## Usage"; "";
       "Include the token in the Authorization header:";
       "```"; "Authorization: Bearer {token}"; "```"]
    else if String.eqb authType "api_key" then
      let header := Js.orElse (meta_auth_header meta) "X-API-Key" in
      ["This API uses API key authentication."; "";
       "## Usage"; "";
       "Include the API key in the `" ++ header ++ "` header."]
    else if String.eqb authType "oauth2" then
      ["This API uses OAuth 2.0 authentication."; ""]
        +++ (if Js.truthyO (meta_auth_flow meta)
            then ["## Flow: " ++ Js.orElse (meta_auth_flow meta) ""; ""]
            else [])
        +++ (match meta_auth_scopes meta with
            | Some s =>
                if scopesTruthy s
                then ["## Default Scopes"; ""]
                       +++ map (fun scope => "- `" ++ scope ++ "`") (scopeList s)
                else []
            | None => []
            end)
    else ["Authentication type: " ++ authType] in
  let docs :=
    if Js.truthyO (meta_auth_docs_url meta) then
      [""; "## Documentation"; "";
       "See [Authentication Docs]("
         ++ Js.orElse (meta_auth_docs_url meta) ""
         ++ ") for setup instructions."]
    else [] in
  Js.join nl (["# Authentication"; ""] +++ body +++ docs +++ [""]).

(** [generateTypesFile], lines 208-219. *)
Definition generateTypesFile (globalTypes : string) : string :=
  Js.join nl ["# Shared Types"; ""; "```typescript"; globalTypes; "```"; ""].

Definition boolText (b : bool) : string := if b then "true" else "false".

(** A titled section of a capability file, under [if (text)]. *)
Definition textSection (title : string) (text : option string) : list string :=
  if Js.truthyO text then [title; ""; Js.orElse text ""; ""] else [].

(** The same with the text in a [typescript] fence. *)
Definition codeSection (title : string) (text : option string) : list string :=
  if Js.truthyO text
  then [title; ""; "```typescript"; Js.orElse text ""; "```"; ""]
  else [].

(** [generateCapabilityFile], lines 224-302. *)
Definition generateCapabilityFile (cap : ParsedCapability) : string :=
  let m := cap_meta cap in
  Js.join nl
    (["# Capability: " ++ cap_name cap; "";
      "~~~meta";
      "id: " ++ capmeta_id m;
      "transport: " ++ capmeta_transport m]
       +++ metaLine "auth" (capmeta_auth m)
       +++ (match capmeta_idempotent m with
           | Some b => ["idempotent: " ++ boolText b]
           | None => []
           end)
       +++ (match capmeta_deprecated m with
           | Some true => ["deprecated: true"]
           | _ => []
           end)
       +++ ["~~~"; ""]
       +++ textSection "## Intention" (cap_intention cap)
       +++ textSection "## Auth Intention" (cap_authIntention cap)
       +++ codeSection "## Input" (cap_input cap)
       +++ codeSection "## Output" (cap_output cap)
       +++ textSection "## Logic Constraints" (cap_logicConstraints cap)
       +++ textSection "## Errors" (cap_errors cap)
       +++ textSection "## Example" (cap_example cap)).

(** *** Dependencies *)

(** [x === 'required'] on the auth override of a capability. *)
Definition authRequired (a : option string) : bool :=
  match a with Some s => String.eqb s "required" | None => false end.

(** [x !== 'none'] on the auth scheme of a document. *)
Definition notNone (a : option string) : bool :=
  match a with Some s => negb (String.eqb s "none") | None => true end.

Definition isUndefined {A : Type} (o : option A) : bool :=
  match o with Some _ => false | None => true end.

(** The scan of lines 316-328: some name declared in the global types
    occurs in the raw text of the capability. *)
Definition referencesGlobalType (globalTypes rawContent : string) : bool :=
  let typeMatches := matchAllTypeDeclarations 0 globalTypes in
  let typeNames := map declaredName typeMatches in
  existsb (fun typeName => Js.includes rawContent typeName) typeNames.

(** [determineMapiDependencies], lines 307-331. *)
Definition determineMapiDependencies (cap : ParsedCapability)
  (doc : ParsedMapiDocument) : list string :=
  let auth := capmeta_auth (cap_meta cap) in
  (if authRequired auth
      || (isUndefined auth && notNone (meta_auth (mapi_meta doc)))
   then ["auth"] else [])
    +++ (if Js.truthyO (mapi_globalTypes doc) && Js.truthyO (cap_rawContent cap)
           && referencesGlobalType (Js.orElse (mapi_globalTypes doc) "")
                (Js.orElse (cap_rawContent cap) "")
        then ["schemas/types"] else []).

(** [op.security && op.security.length > 0]. *)
Definition hasSecurity (op : ParsedOpenApiOperation) : bool :=
  match op_security op with
  | Some (_ :: _) => true
  | _ => false
  end.

(** [determineOpenApiDependencies], lines 859-873. *)
Definition determineOpenApiDependencies (op : ParsedOpenApiOperation)
  (doc : ParsedOpenApiDocument) : list string :=
  (if hasSecurity op then ["auth"] else [])
    +++ (if (0 <? List.length (obj_keys (openapi_schemas doc)))%nat
        then ["schemas/types"] else []).

(** *** Capability files of OpenAPI operations *)

(** The text of a value inside a template string, [`${e}`]. *)
Fixpoint valueToString (v : JValue) : string :=
  match v with
  | JNull => "null"
  | JBool b => boolText b
  | JNum q => numberToString q
  | JStr s => s
  | JArr elems =>
      Js.join ","
        (map (fun e => match e with
                       | JNull => EmptyString
                       | _ => valueToString e
                       end) elems)
  | JObj _ => "[object Object]"
  end.

(** [`One of: ${values.map(e => `\`${e}\``).join(', ')}`]. *)
Definition oneOf (values : list JValue) : string :=
  "One of: " ++ Js.join ", " (map (fun e => "`" ++ valueToString e ++ "`") values).

(** [getTypeDescription] on a schema that is present, lines 584-612. *)
Fixpoint describeSchema (schema : OpenApiSchema) (schemas : SchemaTable)
  {struct schema} : TypeDescription :=
  match schema with
  | mkSchema ref type properties _ items enum _ _ _ _ =>
      if Js.truthyO ref then
        let seg := Js.lastSegment (Js.orElse ref "") in
        let refName := if Js.truthy seg then seg else "object" in
        match tableGet schemas refName with
        | Some resolvedSchema =>
            match schema_enum resolvedSchema with
            | Some values => mkTypeDescription "string" (Some (oneOf values))
            | None => mkTypeDescription refName None
            end
        | None => mkTypeDescription refName None
        end
      else
        match enum with
        | Some values => mkTypeDescription "string" (Some (oneOf values))
        | None =>
            let isArray :=
              match type with Some t => String.eqb t "array" | None => false end in
            let isObject :=
              match type with Some t => String.eqb t "object" | None => false end in
            match isArray, items with
            | true, Some itemSchema =>
                let itemType := describeSchema itemSchema schemas in
                mkTypeDescription ("array of " ++ td_type itemType)
                  (td_description itemType)
            | _, _ =>
                if isObject || negb (isUndefined properties)
                then mkTypeDescription "object" None
                else mkTypeDescription (Js.orElse type "string") None
            end
        end
  end.

(** [getTypeDescription], lines 581-613. *)
Definition getTypeDescription (schema : option OpenApiSchema)
  (schemas : SchemaTable) : TypeDescription :=
  match schema with
  | None => mkTypeDescription "string" None
  | Some s => describeSchema s schemas
  end.

(** The resolution of a top-level [$ref] in the two table generators:
    [schemas[refName] || schema]. *)
Definition resolveRef (schema : OpenApiSchema) (schemas : SchemaTable)
  : OpenApiSchema :=
  if Js.truthyO (schema_ref schema) then
    match tableGet schemas (Js.lastSegment (Js.orElse (schema_ref schema) "")) with
    | Some resolved => resolved
    | None => schema
    end
  else schema.

(** [propSchema.description || typeInfo.description || '']. *)
Definition rowDescription (propSchema : OpenApiSchema)
  (typeInfo : TypeDescription) : string :=
  Js.orElse (schema_description propSchema)
    (Js.orElse (td_description typeInfo) "").

(** [generateInputTableRows], lines 618-644. *)
Definition generateInputTableRows (schema : OpenApiSchema)
  (schemas : SchemaTable) (parentRequired : bool) : list string :=
  let resolvedSchema := resolveRef schema schemas in
  match schema_properties resolvedSchema with
  | Some props =>
      let required := requiredOf resolvedSchema in
      map (fun '(propName, propSchema) =>
             let isRequired := if has required propName then "yes" else "no" in
             let typeInfo := getTypeDescription (Some propSchema) schemas in
             "| " ++ propName ++ " | " ++ td_type typeInfo ++ " | " ++ isRequired
                  ++ " | " ++ rowDescription propSchema typeInfo ++ " |")
          (objectEntries props)
  | None => []
  end.

(** [generateOutputTableRows], lines 649-671. *)
Definition generateOutputTableRows (schema : OpenApiSchema)
  (schemas : SchemaTable) : list string :=
  let resolvedSchema := resolveRef schema schemas in
  match schema_properties resolvedSchema with
  | Some props =>
      map (fun '(propName, propSchema) =>
             let typeInfo := getTypeDescription (Some propSchema) schemas in
             "| " ++ propName ++ " | " ++ td_type typeInfo
                  ++ " | " ++ rowDescription propSchema typeInfo ++ " |")
          (objectEntries props)
  | None => []
  end.

(** [x?.content?.['application/json']?.schema]. *)
Definition jsonSchema (content : option (list (string * MediaType)))
  : option OpenApiSchema :=
  match content with
  | Some c =>
      match obj_get c "application/json" with
      | Some media => media_schema media
      | None => None
      end
  | None => None
  end.

Definition requestSchema (op : ParsedOpenApiOperation) : option OpenApiSchema :=
  match op_requestBody op with
  | Some body => jsonSchema (body_content body)
  | None => None
  end.

(** [op.responses?.[c1] || op.responses?.[c2] || ...]. *)
Fixpoint firstResponse (responses : list (string * Response))
  (codes : list string) : option Response :=
  match codes with
  | [] => None
  | code :: rest =>
      match obj_get responses code with
      | Some r => Some r
      | None => firstResponse responses rest
      end
  end.

Definition successSchema (op : ParsedOpenApiOperation) (codes : list string)
  : option OpenApiSchema :=
  match op_responses op with
  | Some responses =>
      match firstResponse responses codes with
      | Some r => jsonSchema (response_content r)
      | None => None
      end
  | None => None
  end.

(** One block of [generateExample]: the fenced example of a schema, when
    the example is truthy and has keys. *)
Definition exampleBlock (title : string) (schema : option OpenApiSchema)
  (schemas : SchemaTable) : list string :=
  match schema with
  | Some s =>
      let example := generateExampleFromSchema s schemas 0 None in
      if truthyV example && (0 <? keyCount example)%nat
      then [title; "```json"; JSON_stringify example; "```"]
      else []
  | None => []
  end.

(** [generateExample], lines 676-706; [None] is [null]. *)
Definition generateExample (op : ParsedOpenApiOperation)
  (doc : ParsedOpenApiDocument) : option string :=
  let schemas := openapi_schemas doc in
  let request := exampleBlock "Request:" (requestSchema op) schemas in
  let response := exampleBlock "Response:" (successSchema op ["200"; "201"]) schemas in
  let lines :=
    match request, response with
    | _ :: _, _ :: _ => request +++ [""] +++ response
    | _, _ => request +++ response
    end in
  match lines with
  | [] => None
  | _ => Some (Js.join nl lines)
  end.

Definition parameterRow (param : OpenApiParameter) (schemas : SchemaTable)
  : string :=
  let required :=
    match param_required param with Some true => "yes" | _ => "no" end in
  let typeInfo := getTypeDescription (param_schema param) schemas in
  let desc := Js.orElse (param_description param)
                ("Parameter from " ++ param_in param) in
  "| " ++ param_name param ++ " | " ++ td_type typeInfo ++ " | " ++ required
       ++ " | " ++ Js.orElse (td_description typeInfo) desc ++ " |".

(** [generateCapabilityFromOperation], lines 498-576. *)
Definition generateCapabilityFromOperation (op : ParsedOpenApiOperation)
  (doc : ParsedOpenApiDocument) : string :=
  let schemas := openapi_schemas doc in
  let capName := Js.orElse (op_summary op) (op_operationId op) in
  let header :=
    ["# Capability: " ++ capName; "";
     "~~~meta";
     "id: " ++ normalizeOperationId (op_operationId op);
     "transport: HTTP " ++ op_method op ++ " " ++ op_path op]
      +++ (if hasSecurity op then ["auth: required"] else [])
      +++ ["~~~"; ""] in
  let intention :=
    ["## Intention"; "";
     Js.orElse (op_description op)
       (Js.orElse (op_summary op)
          ("Performs " ++ op_operationId op ++ " operation."));
     ""] in
  let hasParameters :=
    match op_parameters op with Some (_ :: _) => true | _ => false end in
  let input :=
    if hasParameters || negb (isUndefined (op_requestBody op)) then
      ["## Input"; "";
       "| Field | Type | Required | Description |";
       "|-------|------|----------|-------------|"]
        +++ (match op_parameters op with
             | Some params => map (fun p => parameterRow p schemas) params
             | None => []
             end)
        +++ (match requestSchema op, op_requestBody op with
             | Some bodySchema, Some body =>
                 generateInputTableRows bodySchema schemas
                   (match body_required body with Some b => b | None => false end)
             | _, _ => []
             end)
        +++ [""]
    else [] in
  let output :=
    match successSchema op ["200"; "201"; "204"] with
    | Some outputSchema =>
        ["## Output"; "";
         "| Field | Type | Description |";
         "|-------|------|-------------|"]
          +++ generateOutputTableRows outputSchema schemas
          +++ [""]
    | None => []
    end in
  let example :=
    match generateExample op doc with
    | Some text => if Js.truthy text then ["## Example"; ""; text; ""] else []
    | None => []
    end in
  Js.join nl (header +++ intention +++ input +++ output +++ example).

(** [generateAuthFromOpenApi], lines 427-468. *)
Definition generateAuthFromOpenApi (doc : ParsedOpenApiDocument) : string :=
  match openapi_auth doc with
  | None => Js.join nl ["# Authentication"; ""; "No authentication required."]
  | Some auth =>
      let body :=
        if String.eqb (auth_type auth) "bearer" then
          ["This API uses Bearer token authentication."; "";
           "## Usage"; "";
           "```"; "Authorization: Bearer {token}"; "```"]
        else if String.eqb (auth_type auth) "api_key" then
          ["This API uses API key authentication."]
        else if String.eqb (auth_type auth) "oauth2" then
          ["This API uses OAuth 2.0 authentication."]
            +++ (match auth_flows auth with
                 | Some flows =>
                     [""; "## Flows"; ""]
                       +++ map (fun flowName => "- " ++ flowName)
                             (obj_keys (objectEntries flows))
                 | None => []
                 end)
        else [] in
      Js.join nl (["# Authentication"; ""] +++ body +++ [""])
  end.

(** [generateSchemasFromOpenApi], lines 473-493. *)
Definition generateSchemasFromOpenApi (schemas : SchemaTable) : string :=
  Js.join nl
    (["# Shared Types"; ""; "```typescript"]
       +++ flat_map
             (fun '(name, schema) =>
                let ts := schemaToTypeScript schema name schemas in
                if Js.startsWith ts "interface" then [ts; ""]
                else ["type " ++ name ++ " = " ++ ts ++ ";"; ""])
             (objectEntries schemas)
       +++ ["```"]).

(** *** The two entry points *)

(** The generators are [async]: the only effect is the call of the
    external keyword provider.  [World] is whatever that provider depends
    on and changes; a computation takes a world and gives a result
    ([None] when the provider rejects) and the world left behind. *)
Context {World : Type}.

Definition Async (A : Type) : Type := World -> option A * World.

Definition ret {A : Type} (a : A) : Async A := fun w => (Some a, w).

Definition bind {A B : Type} (m : Async A) (k : A -> Async B) : Async B :=
  fun w =>
    match m w with
    | (Some a, w') => k a w'
    | (None, w') => (None, w')
    end.

Local Notation "x <- m ;; k" := (bind m (fun x => k))
  (at level 100, m at next level, right associativity).

(** [IntentGenerator]: [generate(id, description)]. *)
Definition IntentGenerator : Type := string -> string -> Async (list string).

Record ConvertOptions : Type :=
  mkConvertOptions {
    apiName : option string;
    intentGenerator : option IntentGenerator
  }.

(** The artifacts under construction in the loop over the capabilities. *)
Record Artifacts : Type :=
  mkArtifacts {
    art_capabilities : list (string * string);
    art_index : list CapabilityIndexEntry
  }.

(** The keywords of a MAPI capability, lines 53-58. *)
Definition mapiKeywords (options : ConvertOptions) (cap : ParsedCapability)
  : Async (list string) :=
  let id := capmeta_id (cap_meta cap) in
  match intentGenerator options with
  | Some generate =>
      if Js.truthyO (cap_intention cap)
      then generate id (Js.orElse (cap_intention cap) "")
      else ret (extractIntentKeywords
                  (Js.orElse (cap_intention cap) (cap_name cap)) id)
  | None =>
      ret (extractIntentKeywords
             (Js.orElse (cap_intention cap) (cap_name cap)) id)
  end.

(** The loop of [generateSkillFromMapi], lines 48-69. *)
Fixpoint mapiCapabilities (options : ConvertOptions) (doc : ParsedMapiDocument)
  (caps : list ParsedCapability) (acc : Artifacts) : Async Artifacts :=
  match caps with
  | [] => ret acc
  | cap :: rest =>
      let id := capmeta_id (cap_meta cap) in
      let fileName := id ++ ".md" in
      let capabilities' :=
        obj_set (art_capabilities acc) fileName (generateCapabilityFile cap) in
      keywords <- mapiKeywords options cap ;;
      let dependencies := determineMapiDependencies cap doc in
      let entry :=
        mkCapabilityIndexEntry id keywords ("capabilities/" ++ fileName)
          dependencies in
      mapiCapabilities options doc rest
        (mkArtifacts capabilities' (art_index acc ++ [entry])%list)
  end.

(** The common files of a MAPI document, lines 37-45. *)
Definition mapiCommon (doc : ParsedMapiDocument) : list (string * string) :=
  let auth := meta_auth (mapi_meta doc) in
  let common1 :=
    if Js.truthyO auth && notNone auth
    then obj_set [] "auth.md" (generateAuthFile (mapi_meta doc))
    else [] in
  if Js.truthyO (mapi_globalTypes doc)
  then obj_set common1 "schemas/types.md"
         (generateTypesFile (Js.orElse (mapi_globalTypes doc) ""))
  else common1.

(** [generateSkillFromMapi], lines 28-79. *)
Definition generateSkillFromMapi (doc : ParsedMapiDocument)
  (options : ConvertOptions) : Async SkillOutput :=
  let name := Js.orElse (apiName options) (mapi_title doc) in
  let common := mapiCommon doc in
  arts <- mapiCapabilities options doc (mapi_capabilities doc)
            (mkArtifacts [] []) ;;
  let skillMd :=
    generateSkillMd name (mapi_description doc) (mapi_meta doc)
      (art_index arts) (obj_keys common) in
  ret (mkSkillOutput skillMd common (art_capabilities arts)).

(** The keywords of an OpenAPI operation, lines 367-373. *)
Definition openApiKeywords (options : ConvertOptions)
  (op : ParsedOpenApiOperation) (capabilityId : string) : Async (list string) :=
  match intentGenerator options with
  | Some generate =>
      let description :=
        Js.orElse (op_description op)
          (Js.orElse (op_summary op) (op_operationId op)) in
      generate capabilityId description
  | None => ret (extractOpenApiIntentKeywords op)
  end.

(** The loop of [generateSkillFromOpenApi], lines 360-384. *)
Fixpoint openApiCapabilities (options : ConvertOptions)
  (doc : ParsedOpenApiDocument) (ops : list ParsedOpenApiOperation)
  (acc : Artifacts) : Async Artifacts :=
  match ops with
  | [] => ret acc
  | op :: rest =>
      let capabilityId := normalizeOperationId (op_operationId op) in
      let fileName := capabilityId ++ ".md" in
      let capabilities' :=
        obj_set (art_capabilities acc) fileName
          (generateCapabilityFromOperation op doc) in
      keywords <- openApiKeywords options op capabilityId ;;
      let dependencies := determineOpenApiDependencies op doc in
      let entry :=
        mkCapabilityIndexEntry capabilityId keywords
          ("capabilities/" ++ fileName) dependencies in
      openApiCapabilities options doc rest
        (mkArtifacts capabilities' (art_index acc ++ [entry])%list)
  end.

(** The common files of an OpenAPI document, lines 349-357. *)
Definition openApiCommon (doc : ParsedOpenApiDocument) : list (string * string) :=
  let common1 :=
    match openapi_auth doc with
    | Some _ => obj_set [] "auth.md" (generateAuthFromOpenApi doc)
    | None => []
    end in
  if (0 <? List.length (obj_keys (openapi_schemas doc)))%nat
  then obj_set common1 "schemas/types.md"
         (generateSchemasFromOpenApi (openapi_schemas doc))
  else common1.

(** The [meta] of lines 387-391; [doc.auth?.type || 'none']. *)
Definition openApiMeta (doc : ParsedOpenApiDocument) : DocMeta :=
  let auth :=
    match openapi_auth doc with
    | Some a => if Js.truthy (auth_type a) then auth_type a else "none"
    | None => "none"
    end in
  mkDocMeta (openapi_version doc) (openapi_baseUrl doc) (Some auth)
    None None None None.

(** [generateSkillFromOpenApi], lines 340-400. *)
Definition generateSkillFromOpenApi (doc : ParsedOpenApiDocument)
  (options : ConvertOptions) : Async SkillOutput :=
  let name := Js.orElse (apiName options) (openapi_title doc) in
  let common := openApiCommon doc in
  arts <- openApiCapabilities options doc (openapi_operations doc)
            (mkArtifacts [] []) ;;
  let skillMd :=
    generateSkillMd name (openapi_description doc) (openApiMeta doc)
      (art_index arts) (obj_keys common) in
  ret (mkSkillOutput skillMd common (art_capabilities arts)).

End Generator.

Arguments Async World A : clear implicits.
Arguments IntentGenerator World : clear implicits.
Arguments ConvertOptions World : clear implicits.

(** ** Vocabulary of the statements *)

(** A schema node gets past the tests for an example, a reference, an enum
    and an array, lines 720-741: what remains is an object or a primitive. *)
Definition reachesShape (schema : OpenApiSchema) : bool :=
  isUndefined (schema_example schema)
  && negb (Js.truthyO (schema_ref schema))
  && isUndefined (firstEnum schema)
  && negb (typeIs schema "array" && negb (isUndefined (schema_items schema))).

(** The test of line 744. *)
Definition isObjectSchema (schema : OpenApiSchema) : bool :=
  typeIs schema "object" || negb (isUndefined (schema_properties schema)).

(** The fields of a synthesized object whose name is, or is not, in the
    required set. *)
Definition requiredCount (required : list string)
  (fields : list (string * JValue)) : nat :=
  List.length (filter (fun k => has required k) (obj_keys fields)).

Definition optionalCount (required : list string)
  (fields : list (string * JValue)) : nat :=
  List.length (filter (fun k => negb (has required k)) (obj_keys fields)).

(** The name heuristics of the integer and number cases. *)
Definition nameHasToken (propName : option string) : bool :=
  match propName with
  | Some p => Js.truthy p && Js.includes (Js.toLowerCase p) "token"
  | None => false
  end.

Definition nameIsTemperature (propName : option string) : bool :=
  match propName with
  | Some p => String.eqb (Js.toLowerCase p) "temperature"
  | None => false
  end.

(** ** Sample inputs *)

Module Sample.

Definition noSchema : OpenApiSchema :=
  mkSchema None None None None None None None None None None.

Definition typed (t : string) : OpenApiSchema :=
  mkSchema None (Some t) None None None None None None None None.

Definition refTo (name : string) : OpenApiSchema :=
  mkSchema (Some ("#/components/schemas/" ++ name))
    None None None None None None None None None.

Definition object (props : list (string * OpenApiSchema))
  (required : list string) : OpenApiSchema :=
  mkSchema None (Some "object") (Some props) (Some required)
    None None None None None None.

(** A schema that refers to itself: a list node. *)
Definition node : OpenApiSchema := object [("next", refTo "Node")] [].

(** Two schemas that refer to each other. *)
Definition ping : OpenApiSchema := object [("pong", refTo "Pong")] [].
Definition pong : OpenApiSchema := object [("ping", refTo "Ping")] [].

Definition cyclicTable : SchemaTable :=
  [("Node", node); ("Ping", ping); ("Pong", pong)].

(** Ten optional properties [o0..o9] and three required ones. *)
Definition optionalProps : list (string * OpenApiSchema) :=
  map (fun n => (n, typed "string"))
    ["o0"; "o1"; "o2"; "o3"; "o4"; "o5"; "o6"; "o7"; "o8"; "o9"].

Definition requiredProps : list (string * OpenApiSchema) :=
  map (fun n => (n, typed "string")) ["r0"; "r1"; "r2"].

Definition requiredNames : list string := ["r0"; "r1"; "r2"].

Definition requiredFirst : OpenApiSchema :=
  object (requiredProps ++ optionalProps)%list requiredNames.

Definition optionalFirst : OpenApiSchema :=
  object (optionalProps ++ requiredProps)%list requiredNames.

(** An integer with a declared minimum. *)
Definition integerFrom (m : Q) : OpenApiSchema :=
  mkSchema None (Some "integer") None None None None None None None (Some m).

Definition numberFrom (m : Q) : OpenApiSchema :=
  mkSchema None (Some "number") None None None None None None None (Some m).

(** A dangling reference that also carries an example. *)
Definition danglingWithExample : OpenApiSchema :=
  mkSchema (Some "#/components/schemas/Missing")
    None None None None None None None (Some (JNum 42)) None.

(** Stand-ins for the imported functions. *)
Definition externals : Externals :=
  {| extractIntentKeywords := fun text id => [id; text];
     extractOpenApiIntentKeywords := fun op => [op_method op; op_path op];
     schemaToTypeScript := fun _ name _ => "interface " ++ name ++ " {}";
     numberToString := fun _ => "0";
     JSON_stringify := fun _ => "{}" |}.

Definition operation (operationId : string)
  (security : option (list SecurityRequirement)) : ParsedOpenApiOperation :=
  mkParsedOpenApiOperation operationId "GET" "/users" None None None None None
    security.

Definition bearer : OpenApiAuth := mkOpenApiAuth "bearer" None.

(** A document with a bearer scheme, no named schema, and two operations
    whose identifiers differ but normalize alike. *)
Definition openApiDoc : ParsedOpenApiDocument :=
  mkParsedOpenApiDocument "Users" None (Some "1.0.0") None (Some bearer) []
    [operation "getUser" None; operation "get_user" None].

(** A document with named schemas and one operation that uses none. *)
Definition schemaDoc : ParsedOpenApiDocument :=
  mkParsedOpenApiDocument "Lists" None (Some "1.0.0") None None cyclicTable
    [operation "ping" None].

Definition capability (id : string) (auth : option string) : ParsedCapability :=
  mkParsedCapability "Do Something"
    (mkCapabilityMeta id "HTTP POST /path" auth None None)
    (Some "Why and when to use this capability.") None None None None None None
    None.

Definition mapiDoc : ParsedMapiDocument :=
  mkParsedMapiDocument "API Name" (Some "Brief description of the API.")
    (mkDocMeta (Some "1.0.0") (Some "https://api.example.com/v1")
       (Some "bearer") None None None None)
    None
    [capability "namespace.action" None; capability "namespace.other" None].

Definition noProvider : ConvertOptions unit := mkConvertOptions None None.

End Sample.

(** ** Vocabulary of the further properties *)

(** Some lowercase letter of [s] is followed by an uppercase one: a match
    of [/([a-z])([A-Z])/]. *)
Fixpoint hasBoundary (s : string) : bool :=
  match s with
  | EmptyString => false
  | String c r =>
      match r with
      | String d _ => Js.isLowerAZ c && Js.isUpperAZ d
      | EmptyString => false
      end
      || hasBoundary r
  end.

(** A schema node that is nothing but a reference: a non-empty [$ref] and
    no example of its own. *)
Definition pureReference (schema : OpenApiSchema) : bool :=
  isUndefined (schema_example schema) && Js.truthyO (schema_ref schema).

(** The name a reference points to, [schema.$ref.split('/').pop() || '']. *)
Definition refTarget (schema : OpenApiSchema) : string :=
  Js.lastSegment (Js.orElse (schema_ref schema) "").




(** [Object.keys(example).length] for the example synthesized from an
    optional schema at the root; nothing without a schema. *)
Definition exampleKeys (schema : option OpenApiSchema) (schemas : SchemaTable)
  : nat :=
  match schema with
  | Some s => keyCount (generateExampleFromSchema s schemas 0 None)
  | None => 0%nat
  end.

(** The file of a capability and the entry of the index for it, as the
    two loops build them. *)
Definition capabilityFileName (id : string) : string := id ++ ".md".

Definition mapiEntry (doc : ParsedMapiDocument) (cap : ParsedCapability)
  (keywords : list string) : CapabilityIndexEntry :=
  let id := capmeta_id (cap_meta cap) in
  mkCapabilityIndexEntry id keywords ("capabilities/" ++ capabilityFileName id)
    (determineMapiDependencies cap doc).

Definition openApiEntry (doc : ParsedOpenApiDocument) (op : ParsedOpenApiOperation)
  (keywords : list string) : CapabilityIndexEntry :=
  let id := normalizeOperationId (op_operationId op) in
  mkCapabilityIndexEntry id keywords ("capabilities/" ++ capabilityFileName id)
    (determineOpenApiDependencies op doc).

(** The text handed to the keyword provider for an operation:
    [op.description || op.summary || op.operationId]. *)
Definition operationDescription (op : ParsedOpenApiOperation) : string :=
  Js.orElse (op_description op) (Js.orElse (op_summary op) (op_operationId op)).

(** The options without the keyword provider. *)
Definition withoutProvider {World : Type} (options : ConvertOptions World)
  : ConvertOptions World :=
  mkConvertOptions (apiName options) None.

(** Every character of [s] is in the class [f]; the first character of
    [s] is in the class [f]. *)
Fixpoint allChars (f : ascii -> bool) (s : string) : bool :=
  match s with
  | EmptyString => true
  | String c r => f c && allChars f r
  end.

Definition headIs (f : ascii -> bool) (s : string) : bool :=
  match s with
  | EmptyString => false
  | String c _ => f c
  end.

(** ** Further sample inputs *)

Module Fixture.

(** Two names that are references to each other and nothing else. *)
Definition aliasTable : SchemaTable :=
  [("A", Sample.refTo "B"); ("B", Sample.refTo "A")].

(** A named schema of type string called [Role]. *)
Definition roleTable : SchemaTable := [("Role", Sample.typed "string")].

Definition arrayOf (items : OpenApiSchema) : OpenApiSchema :=
  mkSchema None (Some "array") None None (Some items) None None None None None.



(** An object with a required property of no type and a string. *)
Definition withUntyped : OpenApiSchema :=
  Sample.object [("payload", Sample.noSchema); ("label", Sample.typed "string")]
    ["payload"].

(** An operation with a JSON request body of the given schema. *)
Definition operationWithBody (schema : OpenApiSchema) : ParsedOpenApiOperation :=
  mkParsedOpenApiOperation "createUser" "POST" "/users" None None None
    (Some (mkRequestBody
             (Some [("application/json", mkMediaType (Some schema))]) (Some true)))
    None None.

(** A MAPI document whose global types declare [Id], and a capability
    whose raw text has the word [Identifier]. *)
Definition typedMapiDoc : ParsedMapiDocument :=
  mkParsedMapiDocument "API Name" None
    (mkDocMeta None None (Some "none") None None None None)
    (Some ("interface" ++ " " ++ "Id" ++ " { value: string }"))
    [].

Definition identifierCapability : ParsedCapability :=
  mkParsedCapability "Lookup"
    (mkCapabilityMeta "items.lookup" "HTTP GET /items" (Some "none") None None)
    None None None None None None None
    (Some "Returns the Identifier of the item.").

(** A MAPI document whose capabilities have no intention. *)
Definition plainCapability (id : string) : ParsedCapability :=
  mkParsedCapability "Plain" (mkCapabilityMeta id "INTERNAL" None None None)
    None None None None None None None None.

Definition plainMapiDoc : ParsedMapiDocument :=
  mkParsedMapiDocument "Plain" None (mkDocMeta None None None None None None None)
    None [plainCapability "a.one"; plainCapability "a.two"].

(** A provider that rejects one identifier and counts its calls. *)
Definition rejecting : IntentGenerator nat :=
  fun id description calls =>
    (if String.eqb id "get.user" then None else Some [id; description], S calls).

Definition withRejecting : ConvertOptions nat :=
  mkConvertOptions None (Some rejecting).

End Fixture.

(** * Properties *)

(** ** Strings *)

Lemma includes_dot_hasChar (s : string) :
  Js.includes s "." = hasChar "." s.
Proof.
  induction s as [|c r IH]; [reflexivity|].
  cbn [Js.includes hasChar]. unfold Js.startsWith. cbn [Js.dropPrefix].
  rewrite (Ascii.eqb_sym c "."), IH.
  destruct (Ascii.eqb "." c); reflexivity.
Qed.

Lemma upper_not_lower (c : ascii) :
  Js.isUpperAZ c = true -> Js.isLowerAZ c = false.
Proof.
  unfold Js.isUpperAZ, Js.isLowerAZ, Js.between.
  intros H. apply andb_true_iff in H. destruct H as [_ H].
  apply Nat.leb_le in H. apply andb_false_iff. left.
  apply Nat.leb_gt. lia.
Qed.

(** The left-to-right scan of the regular expression puts a dot at every
    transition: a match ends on an uppercase letter, which starts no
    other match. *)
Lemma replaceCamel_transitions (s : string) :
  Js.replaceCamel s = insertDotsAtTransitions s
  /\ forall c, Js.replaceCamel (String c s) = insertDotsAtTransitions (String c s).
Proof.
  induction s as [|d r [IH1 IH2]].
  - split; reflexivity.
  - split; [apply IH2|].
    intros c.
    change (Js.replaceCamel (String c (String d r)))
      with (if Js.isLowerAZ c && Js.isUpperAZ d
            then String c (String "." (String d (Js.replaceCamel r)))
            else String c (Js.replaceCamel (String d r))).
    change (insertDotsAtTransitions (String c (String d r)))
      with (String c (if Js.isLowerAZ c && Js.isUpperAZ d
                      then String "." (insertDotsAtTransitions (String d r))
                      else insertDotsAtTransitions (String d r))).
    destruct (Js.isLowerAZ c && Js.isUpperAZ d) eqn:T.
    + apply andb_true_iff in T. destruct T as [_ U].
      apply upper_not_lower in U.
      do 2 f_equal.
      destruct r as [|e r'].
      * reflexivity.
      * change (insertDotsAtTransitions (String d (String e r')))
          with (String d (if Js.isLowerAZ d && Js.isUpperAZ e
                          then String "." (insertDotsAtTransitions (String e r'))
                          else insertDotsAtTransitions (String e r'))).
        rewrite U. simpl andb. cbv iota. f_equal. exact IH1.
    + f_equal. apply IH2.
Qed.

Lemma replaceFirstUnderscore_first (a b : string) :
  hasChar "_" a = false ->
  Js.replaceFirstUnderscore (a ++ String "_" b) = a ++ String "." b.
Proof.
  induction a as [|c r IH]; simpl; intros H; [reflexivity|].
  apply orb_false_iff in H. destruct H as [Hc Hr].
  rewrite Hc. f_equal. apply IH, Hr.
Qed.

Lemma replaceFirstUnderscore_none (s : string) :
  hasChar "_" s = false -> Js.replaceFirstUnderscore s = s.
Proof.
  induction s as [|c r IH]; simpl; intros H; [reflexivity|].
  apply orb_false_iff in H. destruct H as [Hc Hr].
  rewrite Hc. f_equal. apply IH, Hr.
Qed.

Lemma lowerChar_not_upper (c : ascii) : Js.isUpperAZ (Js.lowerChar c) = false.
Proof.
  unfold Js.lowerChar, Js.isUpperAZ, Js.code.
  pose proof (nat_ascii_bounded c) as B.
  destruct (Js.between 65 90 (nat_of_ascii c)
            || Js.between 192 214 (nat_of_ascii c)
            || Js.between 216 222 (nat_of_ascii c)) eqn:E.
  - assert (R : (65 <= nat_of_ascii c <= 222)%nat).
    { unfold Js.between in E.
      repeat (apply orb_true_iff in E; destruct E as [E|E]);
        apply andb_true_iff in E; destruct E as [E1 E2];
        apply Nat.leb_le in E1; apply Nat.leb_le in E2; lia. }
    rewrite nat_ascii_embedding by lia.
    unfold Js.between. apply andb_false_iff. right. apply Nat.leb_gt. lia.
  - apply orb_false_iff in E. destruct E as [E _].
    apply orb_false_iff in E. destruct E as [E _]. exact E.
Qed.

Lemma toLowerCase_no_upper (s : string) :
  anyChar Js.isUpperAZ (Js.toLowerCase s) = false.
Proof.
  induction s as [|c r IH]; simpl; [reflexivity|].
  rewrite lowerChar_not_upper, IH. reflexivity.
Qed.

Lemma replaceFirstUnderscore_no_upper (s : string) :
  anyChar Js.isUpperAZ s = false ->
  anyChar Js.isUpperAZ (Js.replaceFirstUnderscore s) = false.
Proof.
  induction s as [|c r IH]; simpl; intros H; [reflexivity|].
  apply orb_false_iff in H. destruct H as [Hc Hr].
  destruct (Ascii.eqb c "_"); simpl; [exact Hr|].
  rewrite Hc, (IH Hr). reflexivity.
Qed.

(** C2. [normalizeOperationId] does what the specification says: an
    identifier with a dot is lowercased and nothing else; otherwise a dot
    is inserted at each lowercase-to-uppercase transition, the whole is
    lowercased, and the first underscore only becomes a dot (what follows
    it is kept as it is; without an underscore nothing changes).  The
    result has no uppercase letter.  The three identifiers of the
    specification normalize as it says. *)
Theorem C2_normalizeOperationId_spec :
  (forall s, normalizeOperationId s = normalizeOperationId_spec s)
  /\ (forall a b, hasChar "_" a = false ->
        Js.replaceFirstUnderscore (a ++ String "_" b) = a ++ String "." b)
  /\ (forall s, hasChar "_" s = false -> Js.replaceFirstUnderscore s = s)
  /\ (forall s, anyChar Js.isUpperAZ (normalizeOperationId s) = false)
  /\ normalizeOperationId "messages_count_tokens" = "messages.count_tokens"
  /\ normalizeOperationId "getUserProfile" = "get.user.profile"
  /\ normalizeOperationId "Already.Dotted" = "already.dotted".
Proof.
  split.
  { intros s. unfold normalizeOperationId, normalizeOperationId_spec.
    rewrite includes_dot_hasChar.
    destruct (replaceCamel_transitions s) as [-> _]. reflexivity. }
  split; [exact replaceFirstUnderscore_first|].
  split; [exact replaceFirstUnderscore_none|].
  split.
  { intros s. unfold normalizeOperationId.
    destruct (Js.includes s ".");
      [|apply replaceFirstUnderscore_no_upper]; apply toLowerCase_no_upper. }
  repeat split; reflexivity.
Qed.

(** ** Example synthesis terminates *)

Section Fields.

Variables rec1 rec2 : OpenApiSchema -> option string -> option JValue.
Variable required : list string.

Lemma exampleFields_ext :
  (forall s n, rec1 s n = rec2 s n) ->
  forall props obj,
    exampleFields rec1 required props obj = exampleFields rec2 required props obj.
Proof.
  intros E props. induction props as [|[f ps] rest IH]; intros obj; simpl.
  - reflexivity.
  - rewrite E. destruct (has required f || (List.length obj <? 5)%nat).
    + destruct (rec2 ps (Some f)) as [v|]; [|reflexivity].
      destruct (isNull v); apply IH.
    + apply IH.
Qed.

Lemma exampleFields_total :
  (forall s n, exists v, rec1 s n = Some v) ->
  forall props obj, exists out, exampleFields rec1 required props obj = Some out.
Proof.
  intros T props. induction props as [|[f ps] rest IH]; intros obj; simpl.
  - eauto.
  - destruct (has required f || (List.length obj <? 5)%nat).
    + destruct (T ps (Some f)) as [v ->].
      destruct (isNull v); apply IH.
    + apply IH.
Qed.

End Fields.

(** With fuel beyond what the depth leaves, the synthesis returns a value
    and no longer depends on the fuel. *)
Lemma generateExample_fuel_enough (fuel : nat) :
  forall schema schemas depth propName,
    (fuelFor depth <= fuel)%nat ->
    (exists v, generateExampleFromSchema_fuel fuel schema schemas depth propName = Some v)
    /\ forall fuel', (fuelFor depth <= fuel')%nat ->
         generateExampleFromSchema_fuel fuel' schema schemas depth propName
         = generateExampleFromSchema_fuel fuel schema schemas depth propName.
Proof.
  unfold fuelFor.
  induction fuel as [|fuel IH]; intros schema schemas depth propName Hf; [lia|].
  assert (Hrec : (depth <= 3)%Z -> (S (Z.to_nat (4 - (depth + 1))) <= fuel)%nat) by lia.
  split.
  - simpl. destruct (3 <? depth)%Z eqn:Hd; [eauto|].
    apply Z.ltb_ge in Hd. specialize (Hrec Hd).
    destruct (schema_example schema); [eauto|].
    destruct (Js.truthyO (schema_ref schema)).
    { destruct (tableGet schemas _); [|eauto]. apply IH, Hrec. }
    destruct (firstEnum schema); [eauto|].
    assert (Hshape :
              exists v,
                match typeIs schema "object", schema_properties schema with
                | _, Some props =>
                    option_map JObj
                      (exampleFields
                         (fun s n =>
                            generateExampleFromSchema_fuel fuel s schemas (depth + 1)%Z n)
                         (requiredOf schema) (objectEntries props) [])
                | true, None => Some (JObj [])
                | false, None => Some (primitiveExample schema propName)
                end = Some v).
    { destruct (schema_properties schema) as [props|].
      - destruct (exampleFields_total
                    (fun s n => generateExampleFromSchema_fuel fuel s schemas (depth + 1)%Z n)
                    (requiredOf schema)
                    (fun s n => proj1 (IH s schemas (depth + 1)%Z n Hrec))
                    (objectEntries props) []) as [out Hout].
        rewrite Hout. destruct (typeIs schema "object"); simpl; eauto.
      - destruct (typeIs schema "object"); eauto. }
    destruct (typeIs schema "array"); [|exact Hshape].
    destruct (schema_items schema) as [items|]; [|exact Hshape].
    destruct (IH items schemas (depth + 1)%Z None Hrec) as [[v ->] _]. eauto.
  - intros [|fuel'] Hf'; [lia|].
    assert (Hrec' : (depth <= 3)%Z -> (S (Z.to_nat (4 - (depth + 1))) <= fuel')%nat) by lia.
    simpl. destruct (3 <? depth)%Z eqn:Hd; [reflexivity|].
    apply Z.ltb_ge in Hd. specialize (Hrec Hd). specialize (Hrec' Hd).
    assert (E : forall s n,
               generateExampleFromSchema_fuel fuel' s schemas (depth + 1)%Z n
               = generateExampleFromSchema_fuel fuel s schemas (depth + 1)%Z n).
    { intros s n. apply IH; assumption. }
    destruct (schema_example schema); [reflexivity|].
    destruct (Js.truthyO (schema_ref schema)).
    { destruct (tableGet schemas _); [apply E | reflexivity]. }
    destruct (firstEnum schema); [reflexivity|].
    destruct (typeIs schema "array"), (schema_items schema) as [items|];
      try rewrite E; try reflexivity;
      (destruct (schema_properties schema) as [props|]; [|reflexivity];
       rewrite (exampleFields_ext _ _ (requiredOf schema) E); reflexivity).
Qed.

Lemma generateExample_fuel_value (schema : OpenApiSchema) (schemas : SchemaTable)
  (depth : Z) (propName : option string) (fuel : nat) :
  (fuelFor depth <= fuel)%nat ->
  generateExampleFromSchema_fuel fuel schema schemas depth propName
  = Some (generateExampleFromSchema schema schemas depth propName).
Proof.
  intros Hf.
  destruct (generateExample_fuel_enough (fuelFor depth) schema schemas depth propName
              (le_n _)) as [[v Hv] Hstable].
  unfold generateExampleFromSchema. rewrite (Hstable fuel Hf), Hv. reflexivity.
Qed.

(** C1. For every schema node, table of named schemas (self-referential or
    cyclic ones included), starting depth and property name, example
    synthesis returns a value as soon as the fuel covers the levels left
    below the ceiling (five nested calls from the root), and the value is
    [null] once the depth exceeds 3. *)
Theorem C1_generateExample_terminates
  (schema : OpenApiSchema) (schemas : SchemaTable) (depth : Z)
  (propName : option string) :
  (forall fuel, (fuelFor depth <= fuel)%nat ->
     generateExampleFromSchema_fuel fuel schema schemas depth propName
     = Some (generateExampleFromSchema schema schemas depth propName))
  /\ (fuelFor 0 = 5)%nat
  /\ ((3 < depth)%Z ->
      generateExampleFromSchema schema schemas depth propName = JNull).
Proof.
  split; [|split].
  - intros fuel Hf. apply generateExample_fuel_value, Hf.
  - reflexivity.
  - intros Hd. unfold generateExampleFromSchema, fuelFor. simpl.
    apply Z.ltb_lt in Hd. rewrite Hd. reflexivity.
Qed.

(** ** The branches of example synthesis *)

Lemma fuelFor_step (depth : Z) :
  (depth <= 3)%Z -> fuelFor depth = S (fuelFor (depth + 1)).
Proof. unfold fuelFor. intros H. f_equal. lia. Qed.

Lemma generateExample_past_ceiling (schema : OpenApiSchema) (schemas : SchemaTable)
  (depth : Z) (propName : option string) :
  (3 < depth)%Z ->
  generateExampleFromSchema schema schemas depth propName = JNull.
Proof.
  intros Hd. unfold generateExampleFromSchema, fuelFor. simpl.
  apply Z.ltb_lt in Hd. rewrite Hd. reflexivity.
Qed.

(** A reference to a name that the table does not have. *)
Lemma generateExample_dangling (schema : OpenApiSchema) (schemas : SchemaTable)
  (depth : Z) (propName : option string) :
  (depth <= 3)%Z ->
  schema_example schema = None ->
  Js.truthyO (schema_ref schema) = true ->
  tableGet schemas (Js.lastSegment (Js.orElse (schema_ref schema) "")) = None ->
  generateExampleFromSchema schema schemas depth propName = JObj [].
Proof.
  intros Hd He Hr Hg. unfold generateExampleFromSchema.
  rewrite (fuelFor_step depth Hd). simpl.
  apply Z.ltb_ge in Hd. rewrite Hd, He, Hr, Hg. reflexivity.
Qed.

(** The primitive branch. *)
Lemma generateExample_primitive (schema : OpenApiSchema) (schemas : SchemaTable)
  (depth : Z) (propName : option string) :
  (depth <= 3)%Z ->
  reachesShape schema = true ->
  isObjectSchema schema = false ->
  generateExampleFromSchema schema schemas depth propName
  = primitiveExample schema propName.
Proof.
  intros Hd Hs Ho. unfold generateExampleFromSchema.
  rewrite (fuelFor_step depth Hd). simpl.
  apply Z.ltb_ge in Hd. rewrite Hd.
  unfold reachesShape in Hs. unfold isObjectSchema in Ho.
  repeat (apply andb_true_iff in Hs; destruct Hs as [Hs ?]).
  apply orb_false_iff in Ho. destruct Ho as [Ho1 Ho2].
  destruct (schema_example schema); [discriminate|].
  destruct (Js.truthyO (schema_ref schema)); [discriminate|].
  destruct (firstEnum schema); [discriminate|].
  rewrite Ho1.
  destruct (schema_properties schema); [discriminate|].
  destruct (typeIs schema "array"), (schema_items schema); try discriminate; reflexivity.
Qed.

(** The object branch: the loop over the properties, with the synthesis
    itself as the recursive call. *)
Lemma generateExample_object (schema : OpenApiSchema) (schemas : SchemaTable)
  (depth : Z) (propName : option string) :
  (depth <= 3)%Z ->
  reachesShape schema = true ->
  isObjectSchema schema = true ->
  Some (generateExampleFromSchema schema schemas depth propName)
  = match schema_properties schema with
    | Some props =>
        option_map JObj
          (exampleFields
             (fun s n => Some (generateExampleFromSchema s schemas (depth + 1)%Z n))
             (requiredOf schema) (objectEntries props) [])
    | None => Some (JObj [])
    end.
Proof.
  intros Hd Hs Ho.
  rewrite <- (generateExample_fuel_value schema schemas depth propName
                (fuelFor depth) (le_n _)).
  rewrite (fuelFor_step depth Hd). simpl.
  apply Z.ltb_ge in Hd. rewrite Hd.
  unfold reachesShape in Hs. unfold isObjectSchema in Ho.
  repeat (apply andb_true_iff in Hs; destruct Hs as [Hs ?]).
  destruct (schema_example schema); [discriminate|].
  destruct (Js.truthyO (schema_ref schema)); [discriminate|].
  destruct (firstEnum schema); [discriminate|].
  assert (E : forall s n,
             generateExampleFromSchema_fuel (fuelFor (depth + 1)) s schemas (depth + 1)%Z n
             = Some (generateExampleFromSchema s schemas (depth + 1)%Z n)).
  { intros s n. apply generateExample_fuel_value, le_n. }
  destruct (typeIs schema "array"), (schema_items schema); try discriminate;
    (destruct (schema_properties schema) as [props|];
     [ rewrite (exampleFields_ext _ _ (requiredOf schema) E);
       destruct (typeIs schema "object"); reflexivity
     | destruct (typeIs schema "object"); [reflexivity | discriminate] ]).
Qed.

(** ** The loop over the properties of an object *)

Lemma has_In (l : list string) (x : string) : has l x = true <-> In x l.
Proof.
  unfold has. rewrite existsb_exists. split.
  - intros [y [Hy E]]. apply String.eqb_eq in E. subst. exact Hy.
  - intros H. exists x. split; [exact H | apply String.eqb_refl].
Qed.

Lemma obj_keys_store {A : Type} (o : list (string * A)) (k : string) (v : A) :
  obj_keys (obj_store o k v)
  = if has (obj_keys o) k then obj_keys o else (obj_keys o ++ [k])%list.
Proof.
  unfold has, obj_keys.
  induction o as [|[k' v'] r IH]; [reflexivity|].
  cbn [obj_store map fst existsb].
  rewrite (String.eqb_sym k k').
  destruct (String.eqb k' k); [reflexivity|].
  cbn [map fst orb]. rewrite IH.
  destruct (existsb (String.eqb k) (map fst r)); reflexivity.
Qed.

Lemma obj_keys_set {A : Type} (o : list (string * A)) (k : string) (v : A) :
  obj_keys (obj_set o k v)
  = if addsNoKey o k then obj_keys o else (obj_keys o ++ [k])%list.
Proof.
  unfold obj_set, addsNoKey.
  destruct (String.eqb k "__proto__"); [reflexivity|].
  apply obj_keys_store.
Qed.

Lemma addsNoKey_In {A : Type} (o : list (string * A)) (k : string) :
  k <> "__proto__" -> addsNoKey o k = true -> In k (obj_keys o).
Proof.
  intros N H. unfold addsNoKey in H. apply orb_true_iff in H.
  destruct H as [H|H]; [apply String.eqb_eq in H; congruence|].
  apply has_In, H.
Qed.

Lemma addsNoKey_fresh {A : Type} (o : list (string * A)) (k : string) :
  addsNoKey o k = false -> ~ In k (obj_keys o).
Proof.
  intros H I. unfold addsNoKey in H. apply orb_false_iff in H.
  destruct H as [_ H]. apply has_In in I. unfold has, obj_keys in I. congruence.
Qed.

Lemma obj_set_length {A : Type} (o : list (string * A)) (k : string) (v : A) :
  List.length (obj_set o k v)
  = if addsNoKey o k then List.length o else S (List.length o).
Proof.
  rewrite <- (length_map fst (obj_set o k v)), <- (length_map fst o).
  fold (obj_keys (obj_set o k v)). fold (obj_keys o).
  rewrite obj_keys_set. destruct (addsNoKey o k); [reflexivity|].
  rewrite length_app. simpl. lia.
Qed.

Lemma count_split (required : list string) (fields : list (string * JValue)) :
  List.length fields
  = (requiredCount required fields + optionalCount required fields)%nat.
Proof.
  unfold requiredCount, optionalCount.
  rewrite <- (length_map fst fields). fold (obj_keys fields).
  induction (obj_keys fields) as [|k r IH]; [reflexivity|].
  simpl. destruct (has required k); simpl; lia.
Qed.

Lemma requiredCount_set (required : list string) (o : list (string * JValue))
  (k : string) (v : JValue) :
  requiredCount required (obj_set o k v)
  = (requiredCount required o
     + if addsNoKey o k then 0 else if has required k then 1 else 0)%nat.
Proof.
  unfold requiredCount. rewrite obj_keys_set.
  destruct (addsNoKey o k); [lia|].
  rewrite filter_app, length_app. simpl.
  destruct (has required k); reflexivity.
Qed.

Lemma optionalCount_set (required : list string) (o : list (string * JValue))
  (k : string) (v : JValue) :
  optionalCount required (obj_set o k v)
  = (optionalCount required o
     + if addsNoKey o k then 0 else if has required k then 0 else 1)%nat.
Proof.
  unfold optionalCount. rewrite obj_keys_set.
  destruct (addsNoKey o k); [lia|].
  rewrite filter_app, length_app. simpl.
  destruct (has required k); reflexivity.
Qed.

Section PropertyLoop.

(** The value synthesized for a property, and the required set. *)
Variable valueOf : OpenApiSchema -> option string -> JValue.
Variable required : list string.

Let loop := exampleFields (fun s n => Some (valueOf s n)) required.

Lemma loop_app (p1 p2 : list (string * OpenApiSchema)) :
  forall obj,
    loop (p1 ++ p2)%list obj
    = match loop p1 obj with
      | Some mid => loop p2 mid
      | None => None
      end.
Proof.
  unfold loop.
  induction p1 as [|[f ps] rest IH]; intros obj; simpl; [reflexivity|].
  destruct (has required f || (List.length obj <? 5)%nat); [|apply IH].
  destruct (isNull (valueOf ps (Some f))); apply IH.
Qed.

Lemma loop_returns (props : list (string * OpenApiSchema)) :
  forall obj, exists out, loop props obj = Some out.
Proof.
  intros obj. apply exampleFields_total. eauto.
Qed.

(** Keys are never removed, and a required property with a value that
    is not [null] gets its key, unless it is [__proto__]. *)
Lemma loop_keeps_required (props : list (string * OpenApiSchema)) :
  forall obj out,
    loop props obj = Some out ->
    (forall k, In k (obj_keys obj) -> In k (obj_keys out))
    /\ (forall f ps, In (f, ps) props -> f <> "__proto__" ->
          has required f = true ->
          valueOf ps (Some f) <> JNull -> In f (obj_keys out)).
Proof.
  unfold loop.
  induction props as [|[f ps] rest IH]; intros obj out H; simpl in H.
  - injection H as <-. split; [auto | intros ? ? []].
  - assert (Hkeep : forall k v, In k (obj_keys obj) ->
                      In k (obj_keys (obj_set obj f v))).
    { intros k v Hk. rewrite obj_keys_set.
      destruct (addsNoKey obj f); [exact Hk | apply in_or_app; left; exact Hk]. }
    assert (Hset : forall v, f <> "__proto__" -> In f (obj_keys (obj_set obj f v))).
    { intros v Np. rewrite obj_keys_set.
      destruct (addsNoKey obj f) eqn:E.
      - apply (addsNoKey_In obj f Np E).
      - apply in_or_app. right. left. reflexivity. }
    destruct (has required f || (List.length obj <? 5)%nat) eqn:G.
    + destruct (isNull (valueOf ps (Some f))) eqn:N.
      * destruct (IH _ _ H) as [K R]. split; [exact K|].
        intros f' ps' [E|I] Np Hr Hn; [|eapply R; eassumption].
        injection E as <- <-. destruct (valueOf ps (Some f)); try discriminate.
        congruence.
      * destruct (IH _ _ H) as [K R]. split.
        -- intros k Hk. apply K, Hkeep. exact Hk.
        -- intros f' ps' [E|I] Np Hr Hn; [|eapply R; eassumption].
           injection E as <- <-. apply K, Hset, Np.
    + destruct (IH _ _ H) as [K R]. split; [exact K|].
      intros f' ps' [E|I] Np Hr Hn; [|eapply R; eassumption].
      injection E as <- <-. rewrite Hr in G. discriminate.
Qed.

(** An optional field is admitted only while fewer than five fields are
    there: no more than five optional fields. *)
Lemma loop_optional_cap (props : list (string * OpenApiSchema)) :
  forall obj out,
    loop props obj = Some out ->
    (optionalCount required obj <= 5)%nat ->
    (optionalCount required out <= 5)%nat.
Proof.
  unfold loop.
  induction props as [|[f ps] rest IH]; intros obj out H Hc; simpl in H.
  - injection H as <-. exact Hc.
  - destruct (has required f || (List.length obj <? 5)%nat) eqn:G;
      [|eapply IH; eassumption].
    destruct (isNull (valueOf ps (Some f))); [eapply IH; eassumption|].
    eapply IH; [eassumption|].
    rewrite optionalCount_set.
    destruct (addsNoKey obj f); [lia|].
    destruct (has required f) eqn:Hr; [lia|].
    simpl in G. apply Nat.ltb_lt in G.
    pose proof (count_split required obj). lia.
Qed.

(** A run of required properties adds required fields only. *)
Lemma loop_required_phase (props : list (string * OpenApiSchema)) :
  (forall f ps, In (f, ps) props -> has required f = true) ->
  forall obj out,
    loop props obj = Some out ->
    optionalCount required out = optionalCount required obj.
Proof.
  unfold loop.
  induction props as [|[f ps] rest IH]; intros Hall obj out H; simpl in H.
  - injection H as <-. reflexivity.
  - assert (Hf : has required f = true) by (eapply Hall; left; reflexivity).
    assert (Hrest : forall f' ps', In (f', ps') rest -> has required f' = true)
      by (intros; eapply Hall; right; eassumption).
    rewrite Hf in H. simpl in H.
    destruct (isNull (valueOf ps (Some f))); [apply (IH Hrest _ _ H)|].
    rewrite (IH Hrest _ _ H), optionalCount_set, Hf.
    destruct (addsNoKey obj f); lia.
Qed.

(** A run of optional properties adds no required field and stops at
    five fields. *)
Lemma loop_optional_phase (props : list (string * OpenApiSchema)) :
  (forall f ps, In (f, ps) props -> has required f = false) ->
  forall obj out,
    loop props obj = Some out ->
    requiredCount required out = requiredCount required obj
    /\ (List.length out <= Nat.max 5 (List.length obj))%nat.
Proof.
  unfold loop.
  induction props as [|[f ps] rest IH]; intros Hall obj out H; simpl in H.
  - injection H as <-. split; [reflexivity | lia].
  - assert (Hf : has required f = false) by (eapply Hall; left; reflexivity).
    assert (Hrest : forall f' ps', In (f', ps') rest -> has required f' = false)
      by (intros; eapply Hall; right; eassumption).
    rewrite Hf in H. simpl in H.
    destruct (List.length obj <? 5)%nat eqn:G; [|apply (IH Hrest _ _ H)].
    destruct (isNull (valueOf ps (Some f))); [apply (IH Hrest _ _ H)|].
    destruct (IH Hrest _ _ H) as [Hr Hl].
    rewrite requiredCount_set, Hf in Hr. rewrite obj_set_length in Hl.
    apply Nat.ltb_lt in G.
    destruct (addsNoKey obj f); split; lia.
Qed.

(** Required properties with distinct names, none of them [__proto__],
    and values that are not [null] all become fields. *)
Lemma loop_required_all (props : list (string * OpenApiSchema)) :
  (forall f ps, In (f, ps) props -> has required f = true) ->
  (forall f ps, In (f, ps) props -> f <> "__proto__") ->
  (forall f ps, In (f, ps) props -> valueOf ps (Some f) <> JNull) ->
  NoDup (map fst props) ->
  forall obj out,
    (forall f, In f (map fst props) -> ~ In f (obj_keys obj)) ->
    loop props obj = Some out ->
    obj_keys out = (obj_keys obj ++ map fst props)%list.
Proof.
  unfold loop.
  induction props as [|[f ps] rest IH]; intros Hall Hproto Hval Hnd obj out Hfresh H;
    simpl in H.
  - injection H as <-. simpl. rewrite app_nil_r. reflexivity.
  - assert (Hf : has required f = true) by (eapply Hall; left; reflexivity).
    rewrite Hf in H. simpl in H.
    destruct (isNull (valueOf ps (Some f))) eqn:N.
    { exfalso. apply (Hval f ps); [left; reflexivity|].
      destruct (valueOf ps (Some f)); try discriminate. reflexivity. }
    inversion Hnd as [|? ? Hnotin Hnd']; subst.
    assert (Hnew : addsNoKey obj f = false).
    { destruct (addsNoKey obj f) eqn:E; [|reflexivity].
      exfalso. apply (Hfresh f); [left; reflexivity|].
      apply (addsNoKey_In obj f (Hproto f ps (or_introl eq_refl)) E). }
    assert (Hfresh' : forall f', In f' (map fst rest) ->
                        ~ In f' (obj_keys (obj_set obj f (valueOf ps (Some f))))).
    { intros f' I. rewrite obj_keys_set, Hnew. intros C.
      apply in_app_or in C. destruct C as [C|[C|[]]].
      - apply (Hfresh f'); [right; exact I | exact C].
      - subst f'. apply Hnotin, I. }
    rewrite (IH (fun f' ps' I => Hall f' ps' (or_intror I))
                (fun f' ps' I => Hproto f' ps' (or_intror I))
                (fun f' ps' I => Hval f' ps' (or_intror I))
                Hnd' _ _ Hfresh' H).
    rewrite obj_keys_set, Hnew, <- app_assoc. reflexivity.
Qed.

End PropertyLoop.

(** ** Objects: required and optional fields *)

(** Each property adds one field at most. *)
Lemma exampleFields_length
  (rec : OpenApiSchema -> option string -> option JValue) (required : list string)
  (props : list (string * OpenApiSchema)) :
  forall obj out,
    exampleFields rec required props obj = Some out ->
    (List.length out <= List.length obj + List.length props)%nat.
Proof.
  induction props as [|[f ps] rest IH]; intros obj out H; simpl in H.
  - injection H as <-. lia.
  - destruct (has required f || (List.length obj <? 5)%nat);
      [|apply IH in H; simpl; lia].
    destruct (rec ps (Some f)) as [v|]; [|discriminate].
    destruct (isNull v); [apply IH in H; simpl; lia|].
    apply IH in H. rewrite obj_set_length in H. simpl.
    destruct (addsNoKey obj f); lia.
Qed.

(** [Object.entries] lists every entry once: the order changes, nothing
    is lost or added. *)
Lemma insertByIndex_perm {A : Type} (x : N * A) (l : list (N * A)) :
  Permutation (insertByIndex x l) (x :: l).
Proof.
  induction l as [|y r IH]; simpl; [apply Permutation_refl|].
  destruct (fst x <? fst y)%N; [apply Permutation_refl|].
  apply Permutation_trans with (y :: x :: r);
    [apply perm_skip, IH | apply perm_swap].
Qed.

Lemma sortByIndex_perm {A : Type} (l : list (N * A)) :
  Permutation (sortByIndex l) l.
Proof.
  induction l as [|x r IH]; simpl; [apply Permutation_refl|].
  apply Permutation_trans with (x :: sortByIndex r);
    [apply insertByIndex_perm | apply perm_skip, IH].
Qed.

Lemma objectEntries_perm {A : Type} (o : list (string * A)) :
  Permutation (objectEntries o) o.
Proof.
  unfold objectEntries. induction o as [|e r IH]; [apply Permutation_refl|].
  cbn [indexEntries nameEntries].
  destruct (arrayIndex (fst e)) as [n|].
  - cbn [sortByIndex fold_right]. fold (sortByIndex (indexEntries r)).
    apply Permutation_trans
      with (e :: (map snd (sortByIndex (indexEntries r)) ++ nameEntries r))%list;
      [|apply perm_skip, IH].
    change (e :: (map snd (sortByIndex (indexEntries r)) ++ nameEntries r))%list
      with ((map snd ((n, e) :: sortByIndex (indexEntries r))) ++ nameEntries r)%list.
    apply Permutation_app_tail, Permutation_map, insertByIndex_perm.
  - apply Permutation_trans
      with (e :: (map snd (sortByIndex (indexEntries r)) ++ nameEntries r))%list;
      [|apply perm_skip, IH].
    apply Permutation_sym, Permutation_middle.
Qed.

Lemma objectEntries_In {A : Type} (o : list (string * A)) (e : string * A) :
  In e (objectEntries o) <-> In e o.
Proof.
  split; apply Permutation_in;
    [apply objectEntries_perm | apply Permutation_sym, objectEntries_perm].
Qed.

Lemma objectEntries_NoDup {A : Type} (o : list (string * A)) :
  NoDup (map fst o) -> NoDup (map fst (objectEntries o)).
Proof.
  apply Permutation_NoDup, Permutation_map, Permutation_sym, objectEntries_perm.
Qed.

(** C3, as the code has it.  For an object schema reached at depth 3 or
    less (no example, reference, enum value or array shape before it), the
    synthesized example is an object in which
    - every required property whose own synthesized value is not [null]
      is a field, unless its name is [__proto__], which is never stored;
    - there are at most five optional fields: an optional property is
      admitted only while fewer than five fields are there, required
      properties are admitted always, in the order in which
      [Object.entries] lists the properties (array indices first, then
      the other names as written);
    - when the required properties come first in that order, the optional
      fields fill what the required ones leave of five, and the total is
      at most the larger of five and the number of required properties;
    - when moreover the required properties have distinct names, none of
      them [__proto__], and values that are not [null], all of them are
      fields: with three of them at most two optional fields follow. *)
Theorem C3_object_example_fields
  (schema : OpenApiSchema) (schemas : SchemaTable) (depth : Z)
  (propName : option string) (props : list (string * OpenApiSchema)) :
  (depth <= 3)%Z ->
  reachesShape schema = true ->
  schema_properties schema = Some props ->
  exists fields,
    generateExampleFromSchema schema schemas depth propName = JObj fields
    /\ (forall f ps,
          In (f, ps) props -> f <> "__proto__" ->
          has (requiredOf schema) f = true ->
          generateExampleFromSchema ps schemas (depth + 1)%Z (Some f) <> JNull ->
          In f (obj_keys fields))
    /\ (optionalCount (requiredOf schema) fields <= 5)%nat
    /\ (forall reqs opts,
          objectEntries props = (reqs ++ opts)%list ->
          (forall f ps, In (f, ps) reqs -> has (requiredOf schema) f = true) ->
          (forall f ps, In (f, ps) opts -> has (requiredOf schema) f = false) ->
          (optionalCount (requiredOf schema) fields
           <= 5 - requiredCount (requiredOf schema) fields)%nat
          /\ (List.length fields <= Nat.max 5 (List.length reqs))%nat
          /\ (NoDup (map fst reqs) ->
              (forall f ps, In (f, ps) reqs -> f <> "__proto__") ->
              (forall f ps, In (f, ps) reqs ->
                 generateExampleFromSchema ps schemas (depth + 1)%Z (Some f) <> JNull) ->
              (forall f ps, In (f, ps) reqs -> In f (obj_keys fields))
              /\ (optionalCount (requiredOf schema) fields
                  <= 5 - List.length reqs)%nat)).
Proof.
  intros Hd Hs Hp.
  set (required := requiredOf schema).
  set (valueOf := fun s n => generateExampleFromSchema s schemas (depth + 1)%Z n).
  set (entries := objectEntries props).
  assert (Ho : isObjectSchema schema = true).
  { unfold isObjectSchema. rewrite Hp. apply orb_true_r. }
  pose proof (generateExample_object schema schemas depth propName Hd Hs Ho) as E.
  rewrite Hp in E.
  change (Some (generateExampleFromSchema schema schemas depth propName)
          = option_map JObj
              (exampleFields (fun s n => Some (valueOf s n)) required entries [])) in E.
  destruct (loop_returns valueOf required entries []) as [fields Hf].
  change (exampleFields (fun s n => Some (valueOf s n)) required entries [] = Some fields)
    in Hf.
  rewrite Hf in E. simpl in E. injection E as E.
  exists fields. split; [exact E|].
  destruct (loop_keeps_required valueOf required entries [] fields Hf) as [_ Hreq].
  split.
  { intros f ps I. apply Hreq. apply objectEntries_In, I. }
  split.
  { apply (loop_optional_cap valueOf required entries [] fields Hf). cbn. lia. }
  intros reqs opts Hsplit Hreqs Hopts.
  pose proof (loop_app valueOf required reqs opts []) as Happ. cbv zeta in Happ.
  rewrite <- Hsplit in Happ. fold entries in Happ. rewrite Hf in Happ.
  destruct (loop_returns valueOf required reqs []) as [mid Hmid].
  change (exampleFields (fun s n => Some (valueOf s n)) required reqs [] = Some mid) in Hmid.
  rewrite Hmid in Happ. symmetry in Happ.
  pose proof (loop_required_phase valueOf required reqs Hreqs [] mid Hmid) as Hopt0.
  destruct (loop_optional_phase valueOf required opts Hopts mid fields Happ)
    as [Hrc Hlen].
  pose proof (count_split required fields) as Cf.
  pose proof (count_split required mid) as Cm.
  change (optionalCount required []) with 0%nat in Hopt0.
  pose proof (exampleFields_length _ required reqs [] mid Hmid) as Hmidlen.
  simpl in Hmidlen.
  split; [lia|]. split; [lia|].
  intros Hnd Hproto Hval.
  pose proof (loop_required_all valueOf required reqs Hreqs Hproto Hval Hnd [] mid
                (fun _ _ C => C) Hmid) as Hkeys.
  simpl in Hkeys.
  split.
  - intros f ps I.
    apply (Hreq f ps);
      [ fold entries; rewrite Hsplit; apply in_or_app; left; exact I
      | apply (Hproto f ps I) | apply (Hreqs f ps I) | apply (Hval f ps I)].
  - assert (List.length mid = List.length reqs).
    { rewrite <- (length_map fst mid). fold (obj_keys mid).
      rewrite Hkeys. apply length_map. }
    lia.
Qed.

(** ** Numbers: name heuristics and the declared minimum *)

Lemma typeIs_exclusive (schema : OpenApiSchema) (t u : string) :
  typeIs schema t = true -> String.eqb t u = false -> typeIs schema u = false.
Proof.
  unfold typeIs. destruct (schema_type schema) as [s|]; [|discriminate].
  intros H N. apply String.eqb_eq in H. subst s. exact N.
Qed.

(** The second test of the integer case, [lower === 'max_tokens'], never
    decides: such a name contains [token]. *)
Lemma integer_name_tests (propName : option string) :
  Js.truthyO propName
  && Js.includes (Js.toLowerCase (Js.orElse propName "")) "token"
  = nameHasToken propName
  /\ (nameHasToken propName = false ->
      Js.truthyO propName
      && String.eqb (Js.toLowerCase (Js.orElse propName "")) "max_tokens" = false).
Proof.
  destruct propName as [p|]; [|split; reflexivity].
  unfold nameHasToken, Js.truthyO, Js.orElse.
  destruct (Js.truthy p) eqn:T; [|split; reflexivity].
  split; [reflexivity|]. simpl. intros H.
  destruct (String.eqb (Js.toLowerCase p) "max_tokens") eqn:E; [|reflexivity].
  apply String.eqb_eq in E. rewrite E in H. discriminate.
Qed.

(** C5, as the code has it.  For a primitive schema of type integer or
    number without an example, reached at depth 3 or less, the name comes
    first: an integer whose name contains [token] (in any letter case)
    yields 1024 and a number named [temperature] (in any letter case)
    yields 0.7, whatever minimum is declared; otherwise the declared
    minimum is the value; without one the default is 100 for an integer
    and 1 for a number. *)
Theorem C5_numeric_example_precedence
  (schema : OpenApiSchema) (schemas : SchemaTable) (depth : Z)
  (propName : option string) :
  (depth <= 3)%Z ->
  reachesShape schema = true ->
  isObjectSchema schema = false ->
  (typeIs schema "integer" = true ->
   generateExampleFromSchema schema schemas depth propName
   = if nameHasToken propName then JNum 1024
     else match schema_minimum schema with
          | Some m => JNum m
          | None => JNum 100
          end)
  /\ (typeIs schema "number" = true ->
      generateExampleFromSchema schema schemas depth propName
      = if nameIsTemperature propName then JNum (7 # 10)
        else match schema_minimum schema with
             | Some m => JNum m
             | None => JNum 1
             end).
Proof.
  intros Hd Hs Ho.
  rewrite (generateExample_primitive schema schemas depth propName Hd Hs Ho).
  unfold primitiveExample. split; intros Ht.
  - rewrite (typeIs_exclusive schema "integer" "string" Ht eq_refl), Ht.
    destruct (integer_name_tests propName) as [-> Hmax].
    destruct (nameHasToken propName); [reflexivity|].
    rewrite (Hmax eq_refl). reflexivity.
  - rewrite (typeIs_exclusive schema "number" "string" Ht eq_refl),
      (typeIs_exclusive schema "number" "integer" Ht eq_refl), Ht.
    reflexivity.
Qed.

(** A reference that [schemas[name]] resolves, to an own entry or to an
    inherited value. *)
Lemma generateExample_resolved (schema target : OpenApiSchema)
  (schemas : SchemaTable) (depth : Z) (propName : option string) :
  (depth <= 3)%Z ->
  schema_example schema = None ->
  Js.truthyO (schema_ref schema) = true ->
  tableGet schemas (Js.lastSegment (Js.orElse (schema_ref schema) "")) = Some target ->
  generateExampleFromSchema schema schemas depth propName
  = generateExampleFromSchema target schemas (depth + 1)%Z
      (Some (Js.lastSegment (Js.orElse (schema_ref schema) ""))).
Proof.
  intros Hd He Hr Hg.
  assert (E : Some (generateExampleFromSchema schema schemas depth propName)
              = Some (generateExampleFromSchema target schemas (depth + 1)%Z
                        (Some (Js.lastSegment (Js.orElse (schema_ref schema) ""))))).
  { rewrite <- (generateExample_fuel_value schema schemas depth propName
                  (fuelFor depth) (le_n _)).
    rewrite <- (generateExample_fuel_value target schemas (depth + 1)%Z
                  (Some (Js.lastSegment (Js.orElse (schema_ref schema) "")))
                  (fuelFor (depth + 1)) (le_n _)).
    rewrite (fuelFor_step depth Hd).
    cbn [generateExampleFromSchema_fuel].
    apply Z.ltb_ge in Hd. rewrite Hd, He, Hr, Hg. reflexivity. }
  injection E as E. exact E.
Qed.

(** An inherited value has none of the fields of a schema: its example
    is [null] at every depth. *)
Lemma generateExample_inherited (schemas : SchemaTable) (depth : Z)
  (propName : option string) :
  generateExampleFromSchema inheritedValue schemas depth propName = JNull.
Proof.
  destruct (Z.ltb_spec 3 depth) as [Hd|Hd]; [apply generateExample_past_ceiling, Hd|].
  rewrite (generateExample_primitive inheritedValue schemas depth propName Hd
             eq_refl eq_refl).
  reflexivity.
Qed.

(** ** References to missing schemas *)

(** C7, as the code has it.  A schema node that carries a non-empty
    [$ref] and no example of its own, reached at depth 3 or less, whose
    target name is not a key of the table, yields the empty object, unless
    the name is one that every object inherits ([constructor],
    [toString], [__proto__] and the like): the read [schemas[name]] then
    finds the inherited value and the node yields [null].  In both cases
    the synthesis returns the value, with any fuel that covers the
    depth. *)
Theorem C7_dangling_reference_yields_empty_object
  (schema : OpenApiSchema) (schemas : SchemaTable) (depth : Z)
  (propName : option string) (ref : string) :
  (depth <= 3)%Z ->
  schema_example schema = None ->
  schema_ref schema = Some ref ->
  ref <> "" ->
  obj_get schemas (Js.lastSegment ref) = None ->
  (isInherited (Js.lastSegment ref) = false ->
   generateExampleFromSchema schema schemas depth propName = JObj []
   /\ forall fuel, (fuelFor depth <= fuel)%nat ->
        generateExampleFromSchema_fuel fuel schema schemas depth propName
        = Some (JObj []))
  /\ (isInherited (Js.lastSegment ref) = true ->
      generateExampleFromSchema schema schemas depth propName = JNull
      /\ forall fuel, (fuelFor depth <= fuel)%nat ->
           generateExampleFromSchema_fuel fuel schema schemas depth propName
           = Some JNull).
Proof.
  intros Hd He Hr Hne Hg.
  assert (Ht : Js.truthyO (schema_ref schema) = true).
  { rewrite Hr. destruct ref; [congruence | reflexivity]. }
  assert (Hn : Js.lastSegment (Js.orElse (schema_ref schema) "") = Js.lastSegment ref).
  { rewrite Hr. destruct ref; [congruence | reflexivity]. }
  split; intros Hi.
  - assert (Hv : generateExampleFromSchema schema schemas depth propName = JObj []).
    { apply generateExample_dangling; try assumption.
      rewrite Hn. unfold tableGet. rewrite Hg, Hi. reflexivity. }
    split; [exact Hv|].
    intros fuel Hf. rewrite <- Hv. apply generateExample_fuel_value, Hf.
  - assert (Hv : generateExampleFromSchema schema schemas depth propName = JNull).
    { rewrite (generateExample_resolved schema inheritedValue schemas depth propName
                 Hd He Ht).
      - apply generateExample_inherited.
      - rewrite Hn. unfold tableGet. rewrite Hg, Hi. reflexivity. }
    split; [exact Hv|].
    intros fuel Hf. rewrite <- Hv. apply generateExample_fuel_value, Hf.
Qed.

(** ** Dependencies *)

Lemma In_app_singleton (x y : string) (a b : bool) (z : string) :
  In x ((if a then [y] else []) ++ (if b then [z] else []))%list
  <-> (a = true /\ x = y) \/ (b = true /\ x = z).
Proof.
  destruct a, b; simpl; intuition congruence.
Qed.

(** C4, as the code has it.  For a MAPI capability the dependency list
    contains [auth] exactly when the capability's own auth is [required],
    or it has no auth override and the auth scheme of the document is not
    [none].  For an OpenAPI operation it contains [auth] exactly when the
    operation has a security requirement of its own; the auth scheme of
    the document is not consulted. *)
Theorem C4_auth_dependency :
  (forall (cap : ParsedCapability) (doc : ParsedMapiDocument),
     In "auth" (determineMapiDependencies cap doc)
     <-> (capmeta_auth (cap_meta cap) = Some "required"
          \/ (capmeta_auth (cap_meta cap) = None
              /\ meta_auth (mapi_meta doc) <> Some "none")))
  /\ (forall (op : ParsedOpenApiOperation) (doc : ParsedOpenApiDocument),
        In "auth" (determineOpenApiDependencies op doc)
        <-> exists requirement others,
              op_security op = Some (requirement :: others)).
Proof.
  split.
  - intros cap doc. unfold determineMapiDependencies.
    rewrite In_app_singleton.
    split.
    + intros [[H _]|[_ H]]; [|discriminate].
      apply orb_true_iff in H. destruct H as [H|H].
      * left. unfold authRequired in H.
        destruct (capmeta_auth (cap_meta cap)) as [a|]; [|discriminate].
        apply String.eqb_eq in H. congruence.
      * right. apply andb_true_iff in H. destruct H as [U N].
        destruct (capmeta_auth (cap_meta cap)); [discriminate|].
        split; [reflexivity|].
        unfold notNone in N. intros C. rewrite C in N. discriminate.
    + intros [H|[H N]]; left; (split; [|reflexivity]); rewrite H; [reflexivity|].
      simpl. unfold notNone.
      destruct (meta_auth (mapi_meta doc)) as [a|]; [|reflexivity].
      destruct (String.eqb a "none") eqn:E; [|reflexivity].
      apply String.eqb_eq in E. congruence.
  - intros op doc. unfold determineOpenApiDependencies.
    rewrite In_app_singleton. unfold hasSecurity.
    split.
    + intros [[H _]|[_ H]]; [|discriminate].
      destruct (op_security op) as [[|r o]|]; try discriminate. eauto.
    + intros (r & o & ->). left. split; reflexivity.
Qed.

(** C8. For an OpenAPI document with a named schema, the dependency list
    of every operation contains [schemas/types], whatever the operation
    refers to; when the table of named schemas is empty, no dependency
    list contains it. *)
Theorem C8_schemas_dependency
  (op : ParsedOpenApiOperation) (doc : ParsedOpenApiDocument) :
  (openapi_schemas doc <> [] ->
   In "schemas/types" (determineOpenApiDependencies op doc))
  /\ (openapi_schemas doc = [] ->
      ~ In "schemas/types" (determineOpenApiDependencies op doc)).
Proof.
  unfold determineOpenApiDependencies. rewrite In_app_singleton.
  split.
  - intros H. right. split; [|reflexivity].
    destruct (openapi_schemas doc); [congruence | reflexivity].
  - intros -> [[_ H]|[H _]]; discriminate.
Qed.

(** ** The generated index *)

Section GeneratorProperties.

Context {Ext : Externals} {World : Type}.

Variable options : ConvertOptions World.

Lemma string_length_append (a b : string) :
  String.length (a ++ b) = (String.length a + String.length b)%nat.
Proof. induction a as [|c r IH]; simpl; [reflexivity | rewrite IH; reflexivity]. Qed.

Lemma append_suffix (a b s1 s2 : string) :
  String.length s1 = String.length s2 -> a ++ s1 = b ++ s2 -> s1 = s2.
Proof.
  intros L. revert b. induction a as [|c r IH]; intros [|d b'] H; simpl in H.
  - exact H.
  - apply (f_equal String.length) in H. simpl in H.
    rewrite string_length_append in H. lia.
  - apply (f_equal String.length) in H. simpl in H.
    rewrite string_length_append in H. lia.
  - injection H as _ H. apply (IH b' H).
Qed.

(** A file name [id.md] is never the key [__proto__]. *)
Lemma md_not_proto (id : string) : id ++ ".md" <> "__proto__".
Proof.
  intros H.
  assert (E : ".md" = "o__").
  { apply (append_suffix id "__prot" ".md" "o__" eq_refl). exact H. }
  discriminate.
Qed.

Lemma obj_set_keeps {A : Type} (o : list (string * A)) (k k' : string) (v : A) :
  k <> "__proto__" ->
  In k' (obj_keys o) \/ k' = k -> In k' (obj_keys (obj_set o k v)).
Proof.
  intros N H. rewrite obj_keys_set. destruct (addsNoKey o k) eqn:E.
  - destruct H as [H| ->]; [exact H | apply (addsNoKey_In o k N E)].
  - apply in_or_app. destruct H as [H| ->]; [left; exact H | right; left; reflexivity].
Qed.

(** What a run of the MAPI loop that returns has added: one entry per
    capability, in order, each with its file among the capability files. *)
Lemma mapiCapabilities_spec (doc : ParsedMapiDocument) (caps : list ParsedCapability) :
  forall acc w arts w',
    mapiCapabilities options doc caps acc w = (Some arts, w') ->
    exists added,
      art_index arts = (art_index acc ++ added)%list
      /\ map entry_id added = map (fun cap => capmeta_id (cap_meta cap)) caps
      /\ map entry_dependencies added
         = map (fun cap => determineMapiDependencies cap doc) caps
      /\ (forall k, In k (obj_keys (art_capabilities acc)) ->
            In k (obj_keys (art_capabilities arts)))
      /\ (forall e, In e added ->
            exists key, entry_filePath e = "capabilities/" ++ key
                        /\ In key (obj_keys (art_capabilities arts))).
Proof.
  induction caps as [|cap rest IH]; intros acc w arts w' H.
  - injection H as <- <-. exists []. rewrite app_nil_r.
    repeat split; auto. intros e [].
  - cbn [mapiCapabilities] in H. unfold bind in H.
    destruct (mapiKeywords options cap w) as [[keywords|] w1]; [|discriminate].
    apply IH in H. cbn [art_index art_capabilities] in H.
    destruct H as (added & Hi & Hids & Hdeps & Hkeep & Hfiles).
    eexists (_ :: added). rewrite Hi, <- app_assoc. cbn [app map entry_id entry_dependencies].
    split; [reflexivity|]. split; [f_equal; exact Hids|].
    split; [f_equal; exact Hdeps|]. split.
    + intros k Hk. apply Hkeep, obj_set_keeps; [apply md_not_proto | left; exact Hk].
    + intros e [<-|He]; [|apply Hfiles, He].
      eexists. split; [reflexivity|].
      apply Hkeep, obj_set_keeps; [apply md_not_proto | right; reflexivity].
Qed.

(** The same for the OpenAPI loop; the identifiers are the normalized
    operation identifiers. *)
Lemma openApiCapabilities_spec (doc : ParsedOpenApiDocument)
  (ops : list ParsedOpenApiOperation) :
  forall acc w arts w',
    openApiCapabilities options doc ops acc w = (Some arts, w') ->
    exists added,
      art_index arts = (art_index acc ++ added)%list
      /\ map entry_id added
         = map (fun op => normalizeOperationId (op_operationId op)) ops
      /\ map entry_dependencies added
         = map (fun op => determineOpenApiDependencies op doc) ops
      /\ (forall k, In k (obj_keys (art_capabilities acc)) ->
            In k (obj_keys (art_capabilities arts)))
      /\ (forall e, In e added ->
            exists key, entry_filePath e = "capabilities/" ++ key
                        /\ In key (obj_keys (art_capabilities arts))).
Proof.
  induction ops as [|op rest IH]; intros acc w arts w' H.
  - injection H as <- <-. exists []. rewrite app_nil_r.
    repeat split; auto. intros e [].
  - cbn [openApiCapabilities] in H. unfold bind in H.
    destruct (openApiKeywords options op _ w) as [[keywords|] w1]; [|discriminate].
    apply IH in H. cbn [art_index art_capabilities] in H.
    destruct H as (added & Hi & Hids & Hdeps & Hkeep & Hfiles).
    eexists (_ :: added). rewrite Hi, <- app_assoc. cbn [app map entry_id entry_dependencies].
    split; [reflexivity|]. split; [f_equal; exact Hids|].
    split; [f_equal; exact Hdeps|]. split.
    + intros k Hk. apply Hkeep, obj_set_keeps; [apply md_not_proto | left; exact Hk].
    + intros e [<-|He]; [|apply Hfiles, He].
      eexists. split; [reflexivity|].
      apply Hkeep, obj_set_keeps; [apply md_not_proto | right; reflexivity].
Qed.

(** A generation that returns has run its loop, and its index document is
    rendered from the index of that loop. *)
Lemma generateSkillFromMapi_inv (doc : ParsedMapiDocument) (w w' : World)
  (out : SkillOutput) :
  generateSkillFromMapi doc options w = (Some out, w') ->
  exists arts,
    mapiCapabilities options doc (mapi_capabilities doc) (mkArtifacts [] []) w
    = (Some arts, w')
    /\ capabilities out = art_capabilities arts
    /\ common out = mapiCommon doc
    /\ skillMd out
       = generateSkillMd (Js.orElse (apiName options) (mapi_title doc))
           (mapi_description doc) (mapi_meta doc) (art_index arts)
           (obj_keys (mapiCommon doc)).
Proof.
  unfold generateSkillFromMapi, bind, ret. intros H.
  destruct (mapiCapabilities options doc (mapi_capabilities doc) (mkArtifacts [] []) w)
    as [[arts|] w1]; [|discriminate].
  injection H as <- <-. exists arts. repeat split.
Qed.

Lemma generateSkillFromOpenApi_inv (doc : ParsedOpenApiDocument) (w w' : World)
  (out : SkillOutput) :
  generateSkillFromOpenApi doc options w = (Some out, w') ->
  exists arts,
    openApiCapabilities options doc (openapi_operations doc) (mkArtifacts [] []) w
    = (Some arts, w')
    /\ capabilities out = art_capabilities arts
    /\ common out = openApiCommon doc
    /\ skillMd out
       = generateSkillMd (Js.orElse (apiName options) (openapi_title doc))
           (openapi_description doc) (openApiMeta doc) (art_index arts)
           (obj_keys (openApiCommon doc)).
Proof.
  unfold generateSkillFromOpenApi, bind, ret. intros H.
  destruct (openApiCapabilities options doc (openapi_operations doc) (mkArtifacts [] []) w)
    as [[arts|] w1]; [|discriminate].
  injection H as <- <-. exists arts. repeat split.
Qed.

(** C6, as the code has it.  The index of a generation that returns (the
    index built by its loop, from which the index document is rendered)
    has one entry per capability or operation, in document order; the
    identifiers are those of the capabilities (MAPI) or the normalized
    operation identifiers (OpenAPI), taken as they come: they are pairwise
    distinct exactly when those of the document are. *)
Theorem C6_index_ids_follow_document :
  (forall (doc : ParsedMapiDocument) (w w' : World) (out : SkillOutput),
     generateSkillFromMapi doc options w = (Some out, w') ->
     exists arts,
       mapiCapabilities options doc (mapi_capabilities doc) (mkArtifacts [] []) w
       = (Some arts, w')
       /\ skillMd out
          = generateSkillMd (Js.orElse (apiName options) (mapi_title doc))
              (mapi_description doc) (mapi_meta doc) (art_index arts)
              (obj_keys (common out))
       /\ map entry_id (art_index arts)
          = map (fun cap => capmeta_id (cap_meta cap)) (mapi_capabilities doc)
       /\ (NoDup (map entry_id (art_index arts))
           <-> NoDup (map (fun cap => capmeta_id (cap_meta cap))
                        (mapi_capabilities doc))))
  /\ (forall (doc : ParsedOpenApiDocument) (w w' : World) (out : SkillOutput),
        generateSkillFromOpenApi doc options w = (Some out, w') ->
        exists arts,
          openApiCapabilities options doc (openapi_operations doc)
            (mkArtifacts [] []) w
          = (Some arts, w')
          /\ skillMd out
             = generateSkillMd (Js.orElse (apiName options) (openapi_title doc))
                 (openapi_description doc) (openApiMeta doc) (art_index arts)
                 (obj_keys (common out))
          /\ map entry_id (art_index arts)
             = map (fun op => normalizeOperationId (op_operationId op))
                 (openapi_operations doc)
          /\ (NoDup (map entry_id (art_index arts))
              <-> NoDup (map (fun op => normalizeOperationId (op_operationId op))
                           (openapi_operations doc)))).
Proof.
  split; intros doc w w' out H.
  - apply generateSkillFromMapi_inv in H.
    destruct H as (arts & Hloop & _ & Hcommon & Hmd).
    exists arts. split; [exact Hloop|].
    apply mapiCapabilities_spec in Hloop.
    destruct Hloop as (added & Hi & Hids & _). cbn [art_index app] in Hi.
    rewrite Hcommon, Hi, Hids.
    split; [rewrite Hmd, Hi; reflexivity|]. split; [reflexivity | tauto].
  - apply generateSkillFromOpenApi_inv in H.
    destruct H as (arts & Hloop & _ & Hcommon & Hmd).
    exists arts. split; [exact Hloop|].
    apply openApiCapabilities_spec in Hloop.
    destruct Hloop as (added & Hi & Hids & _). cbn [art_index app] in Hi.
    rewrite Hcommon, Hi, Hids.
    split; [rewrite Hmd, Hi; reflexivity|]. split; [reflexivity | tauto].
Qed.

(** C10. For every entry of the index of a generation that returns (the
    index built by its loop, from which the index document is rendered),
    the file path is [capabilities/] followed by a key of the capability
    files returned. *)
Theorem C10_index_paths_are_capability_files :
  (forall (doc : ParsedMapiDocument) (w w' : World) (out : SkillOutput),
     generateSkillFromMapi doc options w = (Some out, w') ->
     exists arts,
       mapiCapabilities options doc (mapi_capabilities doc) (mkArtifacts [] []) w
       = (Some arts, w')
       /\ skillMd out
          = generateSkillMd (Js.orElse (apiName options) (mapi_title doc))
              (mapi_description doc) (mapi_meta doc) (art_index arts)
              (obj_keys (common out))
       /\ List.length (art_index arts) = List.length (mapi_capabilities doc)
       /\ forall e, In e (art_index arts) ->
            exists key, entry_filePath e = "capabilities/" ++ key
                        /\ In key (obj_keys (capabilities out)))
  /\ (forall (doc : ParsedOpenApiDocument) (w w' : World) (out : SkillOutput),
        generateSkillFromOpenApi doc options w = (Some out, w') ->
        exists arts,
          openApiCapabilities options doc (openapi_operations doc)
            (mkArtifacts [] []) w
          = (Some arts, w')
          /\ skillMd out
             = generateSkillMd (Js.orElse (apiName options) (openapi_title doc))
                 (openapi_description doc) (openApiMeta doc) (art_index arts)
                 (obj_keys (common out))
          /\ List.length (art_index arts) = List.length (openapi_operations doc)
          /\ forall e, In e (art_index arts) ->
               exists key, entry_filePath e = "capabilities/" ++ key
                           /\ In key (obj_keys (capabilities out))).
Proof.
  split; intros doc w w' out H.
  - apply generateSkillFromMapi_inv in H.
    destruct H as (arts & Hloop & Hcaps & Hcommon & Hmd).
    exists arts. split; [exact Hloop|].
    apply mapiCapabilities_spec in Hloop.
    destruct Hloop as (added & Hi & Hids & _ & _ & Hfiles). cbn [art_index app] in Hi.
    rewrite Hcommon, Hcaps, Hi.
    split; [rewrite Hmd, Hi; reflexivity|]. split; [|exact Hfiles].
    rewrite <- (length_map entry_id), Hids. apply length_map.
  - apply generateSkillFromOpenApi_inv in H.
    destruct H as (arts & Hloop & Hcaps & Hcommon & Hmd).
    exists arts. split; [exact Hloop|].
    apply openApiCapabilities_spec in Hloop.
    destruct Hloop as (added & Hi & Hids & _ & _ & Hfiles). cbn [art_index app] in Hi.
    rewrite Hcommon, Hcaps, Hi.
    split; [rewrite Hmd, Hi; reflexivity|]. split; [|exact Hfiles].
    rewrite <- (length_map entry_id), Hids. apply length_map.
Qed.

End GeneratorProperties.

(** * The theorems at sample inputs *)

(** C1 on tables with cycles of length one and two. *)
Lemma C1_witness_cyclic_tables :
  generateExampleFromSchema_fuel 5 (Sample.refTo "Node") Sample.cyclicTable 0 None
  = Some (JObj [("next", JObj [])])
  /\ generateExampleFromSchema_fuel 5 (Sample.refTo "Ping") Sample.cyclicTable 0 None
     = Some (JObj [("pong", JObj [])])
  /\ generateExampleFromSchema (Sample.refTo "Node") Sample.cyclicTable 4 None = JNull.
Proof.
  destruct (C1_generateExample_terminates (Sample.refTo "Node") Sample.cyclicTable 0 None)
    as (Hnode & _ & _).
  destruct (C1_generateExample_terminates (Sample.refTo "Ping") Sample.cyclicTable 0 None)
    as (Hping & _ & _).
  destruct (C1_generateExample_terminates (Sample.refTo "Node") Sample.cyclicTable 4 None)
    as (_ & _ & Hdeep).
  split; [|split].
  - rewrite (Hnode 5%nat (le_n 5)). reflexivity.
  - rewrite (Hping 5%nat (le_n 5)). reflexivity.
  - apply Hdeep. reflexivity.
Defined.

(** C2 on the identifier of the specification: the second underscore
    stays. *)
Lemma C2_witness_first_underscore :
  Js.replaceFirstUnderscore ("messages" ++ String "_" "count_tokens")
  = "messages" ++ String "." "count_tokens".
Proof.
  destruct C2_normalizeOperationId_spec as (_ & Hfirst & _).
  apply Hfirst. reflexivity.
Defined.

(** C3 on three required properties followed by ten optional ones. *)
Lemma C3_witness_required_first :
  exists fields,
    generateExampleFromSchema Sample.requiredFirst [] 0 None = JObj fields
    /\ (forall f ps, In (f, ps) Sample.requiredProps -> In f (obj_keys fields))
    /\ (optionalCount Sample.requiredNames fields <= 2)%nat
    /\ (List.length fields <= 5)%nat.
Proof.
  destruct (C3_object_example_fields Sample.requiredFirst [] 0 None
              (Sample.requiredProps ++ Sample.optionalProps)%list
              (Zle_bool_imp_le 0 3 eq_refl) eq_refl eq_refl)
    as (fields & Hv & _ & _ & Hfirst).
  destruct (Hfirst Sample.requiredProps Sample.optionalProps eq_refl)
    as (_ & Hlen & Hall).
  - intros f ps H. simpl in H.
    destruct H as [H|[H|[H|[]]]]; injection H as <- _; reflexivity.
  - intros f ps H. simpl in H.
    repeat (destruct H as [H|H]; [injection H as <- _; reflexivity|]).
    destruct H.
  - destruct Hall as [Hin Hopt].
    + simpl. repeat constructor; simpl; intuition discriminate.
    + intros f ps H. simpl in H.
      destruct H as [H|[H|[H|[]]]]; injection H as <- _; discriminate.
    + intros f ps H. simpl in H.
      destruct H as [H|[H|[H|[]]]]; injection H as <- <-; discriminate.
    + exists fields. repeat split; [exact Hv | exact Hin | exact Hopt | exact Hlen].
Defined.

(** C3 as stated fails: with the optional properties first, five of them
    are admitted before the three required ones, eight fields in all. *)
Lemma C3_counterexample_optional_first :
  schema_properties Sample.optionalFirst
  = Some (Sample.optionalProps ++ Sample.requiredProps)%list
  /\ List.length Sample.requiredProps = 3%nat
  /\ List.length Sample.optionalProps = 10%nat
  /\ exists fields,
       generateExampleFromSchema Sample.optionalFirst [] 0 None = JObj fields
       /\ obj_keys fields = ["o0"; "o1"; "o2"; "o3"; "o4"; "r0"; "r1"; "r2"]
       /\ ~ (List.length fields <= 5)%nat
       /\ ~ (optionalCount (requiredOf Sample.optionalFirst) fields <= 2)%nat.
Proof.
  repeat split.
  eexists. split; [reflexivity|]. split; [reflexivity|].
  split; vm_compute; lia.
Qed.

(** C4 on a MAPI capability without an override in a bearer document. *)
Lemma C4_witness_mapi_default :
  In "auth"
    (determineMapiDependencies (Sample.capability "namespace.action" None)
       Sample.mapiDoc).
Proof.
  destruct C4_auth_dependency as [Hmapi _].
  apply Hmapi. right. split; [reflexivity | discriminate].
Defined.

(** C4 as stated fails for OpenAPI: an operation without a security
    requirement of its own, in a document with a bearer scheme, does not
    depend on [auth]. *)
Lemma C4_counterexample_openapi_default :
  op_security (Sample.operation "getUser" None) = None
  /\ openapi_auth Sample.openApiDoc = Some Sample.bearer
  /\ auth_type Sample.bearer <> "none"
  /\ In (Sample.operation "getUser" None) (openapi_operations Sample.openApiDoc)
  /\ ~ In "auth"
         (determineOpenApiDependencies (Sample.operation "getUser" None)
            Sample.openApiDoc).
Proof.
  repeat split; try discriminate.
  - left. reflexivity.
  - intros [].
Qed.

(** C5 on names without a heuristic: the minimum is the value. *)
Lemma C5_witness_minimum :
  generateExampleFromSchema (Sample.integerFrom 5) [] 0 (Some "count") = JNum 5
  /\ generateExampleFromSchema (Sample.numberFrom 2) [] 0 (Some "top_p") = JNum 2.
Proof.
  destruct (C5_numeric_example_precedence (Sample.integerFrom 5) [] 0 (Some "count")
              (Zle_bool_imp_le 0 3 eq_refl) eq_refl eq_refl) as [Hint _].
  destruct (C5_numeric_example_precedence (Sample.numberFrom 2) [] 0 (Some "top_p")
              (Zle_bool_imp_le 0 3 eq_refl) eq_refl eq_refl) as [_ Hnum].
  split; [exact (Hint eq_refl) | exact (Hnum eq_refl)].
Defined.

(** C5 as stated fails: the name is consulted before the declared
    minimum. *)
Lemma C5_counterexample_name_before_minimum :
  schema_minimum (Sample.integerFrom 5) = Some 5
  /\ generateExampleFromSchema (Sample.integerFrom 5) [] 0 (Some "max_tokens")
     = JNum 1024
  /\ JNum 1024 <> JNum 5
  /\ schema_minimum (Sample.numberFrom 2) = Some 2
  /\ generateExampleFromSchema (Sample.numberFrom 2) [] 0 (Some "temperature")
     = JNum (7 # 10)
  /\ JNum (7 # 10) <> JNum 2.
Proof.
  repeat split; discriminate.
Qed.

(** C6 on a MAPI document with distinct identifiers. *)
Lemma C6_witness_mapi_ids :
  exists arts,
    @mapiCapabilities Sample.externals unit Sample.noProvider Sample.mapiDoc
      (mapi_capabilities Sample.mapiDoc) (mkArtifacts [] []) tt
    = (Some arts, tt)
    /\ map entry_id (art_index arts) = ["namespace.action"; "namespace.other"].
Proof.
  destruct (@C6_index_ids_follow_document Sample.externals unit Sample.noProvider)
    as [Hmapi _].
  edestruct (Hmapi Sample.mapiDoc tt tt) as (arts & Hloop & _ & Hids & _);
    [vm_compute; reflexivity|].
  exists arts. split; [exact Hloop | exact Hids].
Defined.

(** C6 as stated fails: two operations whose identifiers differ and
    normalize alike give two entries with the same identifier. *)
Lemma C6_counterexample_colliding_ids :
  map op_operationId (openapi_operations Sample.openApiDoc) = ["getUser"; "get_user"]
  /\ exists out arts,
       @generateSkillFromOpenApi Sample.externals unit Sample.openApiDoc
         Sample.noProvider tt = (Some out, tt)
       /\ @openApiCapabilities Sample.externals unit Sample.noProvider
            Sample.openApiDoc (openapi_operations Sample.openApiDoc)
            (mkArtifacts [] []) tt = (Some arts, tt)
       /\ map entry_id (art_index arts) = ["get.user"; "get.user"]
       /\ ~ NoDup (map entry_id (art_index arts)).
Proof.
  split; [reflexivity|].
  eexists. eexists. split; [vm_compute; reflexivity|].
  split; [vm_compute; reflexivity|].
  split; [reflexivity|].
  cbn. intros H. inversion H as [|? ? Hnotin _]. apply Hnotin. left. reflexivity.
Qed.

(** C7 on a reference to a schema that the table does not have, and on a
    reference to the inherited name [constructor]. *)
Lemma C7_witness_missing_schema :
  (generateExampleFromSchema (Sample.refTo "Missing") Sample.cyclicTable 0 None
   = JObj []
   /\ generateExampleFromSchema_fuel 5 (Sample.refTo "Missing") Sample.cyclicTable 0 None
      = Some (JObj []))
  /\ generateExampleFromSchema (Sample.refTo "constructor") [] 0 None = JNull.
Proof.
  destruct (C7_dangling_reference_yields_empty_object
              (Sample.refTo "Missing") Sample.cyclicTable 0 None
              "#/components/schemas/Missing"
              (Zle_bool_imp_le 0 3 eq_refl) eq_refl eq_refl)
    as [Hmissing _].
  - discriminate.
  - reflexivity.
  - destruct (C7_dangling_reference_yields_empty_object
                (Sample.refTo "constructor") [] 0 None
                "#/components/schemas/constructor"
                (Zle_bool_imp_le 0 3 eq_refl) eq_refl eq_refl)
      as [_ Hinherited].
    + discriminate.
    + reflexivity.
    + destruct (Hmissing eq_refl) as [Hv Hfuel].
      destruct (Hinherited eq_refl) as [Hnull _].
      split; [split; [exact Hv | apply Hfuel, le_n] | exact Hnull].
Defined.

(** C7 as stated fails: an example on the node wins over its dangling
    reference. *)
Lemma C7_counterexample_example_wins :
  schema_ref Sample.danglingWithExample = Some "#/components/schemas/Missing"
  /\ tableGet [] "Missing" = None
  /\ generateExampleFromSchema Sample.danglingWithExample [] 0 None = JNum 42
  /\ JNum 42 <> JObj [].
Proof.
  repeat split; discriminate.
Qed.

(** C8 on a document with named schemas and on one without. *)
Lemma C8_witness_schema_table :
  In "schemas/types"
    (determineOpenApiDependencies (Sample.operation "ping" None) Sample.schemaDoc)
  /\ ~ In "schemas/types"
         (determineOpenApiDependencies (Sample.operation "getUser" None)
            Sample.openApiDoc).
Proof.
  split.
  - apply (C8_schemas_dependency (Sample.operation "ping" None) Sample.schemaDoc).
    discriminate.
  - apply (C8_schemas_dependency (Sample.operation "getUser" None) Sample.openApiDoc).
    reflexivity.
Defined.

(** C10 on the two sample documents. *)
Lemma C10_witness_sample_documents :
  (exists arts,
     @mapiCapabilities Sample.externals unit Sample.noProvider Sample.mapiDoc
       (mapi_capabilities Sample.mapiDoc) (mkArtifacts [] []) tt
     = (Some arts, tt)
     /\ List.length (art_index arts) = 2%nat
     /\ forall e, In e (art_index arts) ->
          exists key, entry_filePath e = "capabilities/" ++ key
                      /\ In key ["namespace.action.md"; "namespace.other.md"])
  /\ (exists arts,
        @openApiCapabilities Sample.externals unit Sample.noProvider
          Sample.openApiDoc (openapi_operations Sample.openApiDoc)
          (mkArtifacts [] []) tt
        = (Some arts, tt)
        /\ forall e, In e (art_index arts) ->
             exists key, entry_filePath e = "capabilities/" ++ key
                         /\ In key ["get.user.md"]).
Proof.
  destruct (@C10_index_paths_are_capability_files Sample.externals unit
              Sample.noProvider) as [Hmapi Hopenapi].
  split.
  - edestruct (Hmapi Sample.mapiDoc tt tt) as (arts & Hloop & _ & Hlen & Hfiles);
      [vm_compute; reflexivity|].
    exists arts. split; [exact Hloop|]. split; [exact Hlen | exact Hfiles].
  - edestruct (Hopenapi Sample.openApiDoc tt tt) as (arts & Hloop & _ & _ & Hfiles);
      [vm_compute; reflexivity|].
    exists arts. split; [exact Hloop | exact Hfiles].
Defined.

(** * Further properties of the generator *)

(** ** Operation identifiers *)

Lemma lowerChar_settled (c : ascii) :
  Js.between 65 90 (Js.code (Js.lowerChar c))
  || Js.between 192 214 (Js.code (Js.lowerChar c))
  || Js.between 216 222 (Js.code (Js.lowerChar c)) = false.
Proof.
  unfold Js.lowerChar, Js.code.
  pose proof (nat_ascii_bounded c) as B.
  destruct (Js.between 65 90 (nat_of_ascii c)
            || Js.between 192 214 (nat_of_ascii c)
            || Js.between 216 222 (nat_of_ascii c)) eqn:E; [|exact E].
  assert (R : (65 <= nat_of_ascii c <= 90 \/ 192 <= nat_of_ascii c <= 222)%nat).
  { unfold Js.between in E.
    repeat (apply orb_true_iff in E; destruct E as [E|E]);
      apply andb_true_iff in E; destruct E as [E1 E2];
      apply Nat.leb_le in E1; apply Nat.leb_le in E2; lia. }
  rewrite nat_ascii_embedding by lia.
  unfold Js.between.
  repeat (apply orb_false_iff; split);
    apply andb_false_iff;
    destruct R; ((left; apply Nat.leb_gt; lia) || (right; apply Nat.leb_gt; lia)).
Qed.

Lemma lowerChar_idempotent (c : ascii) :
  Js.lowerChar (Js.lowerChar c) = Js.lowerChar c.
Proof.
  unfold Js.lowerChar at 1. cbv zeta. rewrite lowerChar_settled. reflexivity.
Qed.

Lemma toLowerCase_idempotent (s : string) :
  Js.toLowerCase (Js.toLowerCase s) = Js.toLowerCase s.
Proof.
  induction s as [|c r IH]; simpl; [reflexivity|].
  rewrite lowerChar_idempotent, IH. reflexivity.
Qed.

(** Lower-casing neither makes nor removes a character outside the
    letters: here the dot (46) and the underscore (95). *)
Lemma lowerChar_keeps (c x : ascii) :
  (Js.code x < 65)%nat \/ (90 < Js.code x < 97)%nat ->
  Ascii.eqb (Js.lowerChar c) x = Ascii.eqb c x.
Proof.
  intros Hx. unfold Js.lowerChar, Js.code in *.
  pose proof (nat_ascii_bounded c) as B.
  destruct (Js.between 65 90 (nat_of_ascii c)
            || Js.between 192 214 (nat_of_ascii c)
            || Js.between 216 222 (nat_of_ascii c)) eqn:E; [|reflexivity].
  assert (R : (65 <= nat_of_ascii c <= 90 \/ 192 <= nat_of_ascii c <= 222)%nat).
  { unfold Js.between in E.
    repeat (apply orb_true_iff in E; destruct E as [E|E]);
      apply andb_true_iff in E; destruct E as [E1 E2];
      apply Nat.leb_le in E1; apply Nat.leb_le in E2; lia. }
  destruct (Ascii.eqb c x) eqn:Ec.
  - apply Ascii.eqb_eq in Ec. subst x. lia.
  - apply Ascii.eqb_neq. intros C.
    apply (f_equal nat_of_ascii) in C.
    rewrite nat_ascii_embedding in C by lia. lia.
Qed.

Lemma hasChar_toLowerCase (x : ascii) (s : string) :
  (Js.code x < 65)%nat \/ (90 < Js.code x < 97)%nat ->
  hasChar x (Js.toLowerCase s) = hasChar x s.
Proof.
  intros Hx. induction s as [|c r IH]; simpl; [reflexivity|].
  rewrite (lowerChar_keeps c x Hx), IH. reflexivity.
Qed.

Lemma toLowerCase_replaceFirstUnderscore (s : string) :
  Js.toLowerCase (Js.replaceFirstUnderscore s)
  = Js.replaceFirstUnderscore (Js.toLowerCase s).
Proof.
  induction s as [|c r IH]; simpl; [reflexivity|].
  rewrite (lowerChar_keeps c "_") by (right; cbv; lia).
  destruct (Ascii.eqb c "_"); simpl; [reflexivity|].
  rewrite IH. reflexivity.
Qed.

Lemma replaceCamel_lowercase (s : string) :
  anyChar Js.isUpperAZ s = false -> Js.replaceCamel s = s.
Proof.
  intros H. destruct (replaceCamel_transitions s) as [-> _].
  induction s as [|c r IH]; simpl; [reflexivity|].
  simpl in H. apply orb_false_iff in H. destruct H as [Hc Hr].
  f_equal. destruct r as [|d r']; [reflexivity|].
  simpl in Hr. apply orb_false_iff in Hr. destruct Hr as [Hd Hr'].
  rewrite Hd, andb_false_r. apply IH. simpl. rewrite Hd, Hr'. reflexivity.
Qed.

Lemma hasChar_replaceFirstUnderscore_dot (s : string) :
  hasChar "." (Js.replaceFirstUnderscore s) = hasChar "." s || hasChar "_" s.
Proof.
  induction s as [|c r IH]; simpl; [reflexivity|].
  destruct (Ascii.eqb c "_") eqn:E; simpl.
  - apply Ascii.eqb_eq in E. subst c. simpl. symmetry. apply orb_true_r.
  - rewrite IH. destruct (Ascii.eqb c "."), (hasChar "." r); reflexivity.
Qed.

Lemma hasChar_insertDots (s : string) :
  hasChar "." (insertDotsAtTransitions s) = hasChar "." s || hasBoundary s
  /\ hasChar "_" (insertDotsAtTransitions s) = hasChar "_" s.
Proof.
  induction s as [|c r [IH1 IH2]]; [split; reflexivity|].
  destruct r as [|d r'].
  - split; simpl; destruct (Ascii.eqb c "."); reflexivity.
  - change (insertDotsAtTransitions (String c (String d r')))
      with (String c (if Js.isLowerAZ c && Js.isUpperAZ d
                      then String "." (insertDotsAtTransitions (String d r'))
                      else insertDotsAtTransitions (String d r'))).
    change (hasBoundary (String c (String d r')))
      with (Js.isLowerAZ c && Js.isUpperAZ d || hasBoundary (String d r')).
    destruct (Js.isLowerAZ c && Js.isUpperAZ d);
      cbn [hasChar]; rewrite ?IH1, ?IH2; split; try reflexivity;
      cbn [Ascii.eqb Bool.eqb orb];
      destruct (Ascii.eqb c "."); cbn [orb]; try reflexivity;
      rewrite ?orb_true_r; reflexivity.
Qed.

(** X1. Normalizing twice is normalizing once: a normalized identifier is
    accepted as it is. *)
Theorem normalizeOperationId_idempotent (s : string) :
  normalizeOperationId (normalizeOperationId s) = normalizeOperationId s.
Proof.
  unfold normalizeOperationId. cbv zeta.
  destruct (Js.includes s ".") eqn:D.
  - rewrite includes_dot_hasChar, hasChar_toLowerCase by (left; cbv; lia).
    rewrite <- includes_dot_hasChar, D. apply toLowerCase_idempotent.
  - set (t := Js.toLowerCase (Js.replaceCamel s)).
    assert (Ht : Js.toLowerCase t = t) by apply toLowerCase_idempotent.
    assert (Hr : Js.toLowerCase (Js.replaceFirstUnderscore t)
                 = Js.replaceFirstUnderscore t).
    { rewrite toLowerCase_replaceFirstUnderscore, Ht. reflexivity. }
    rewrite includes_dot_hasChar, hasChar_replaceFirstUnderscore_dot.
    destruct (hasChar "." t || hasChar "_" t) eqn:E; [exact Hr|].
    apply orb_false_iff in E. destruct E as [_ E].
    rewrite (replaceFirstUnderscore_none t E).
    rewrite replaceCamel_lowercase by apply toLowerCase_no_upper.
    rewrite Ht. apply replaceFirstUnderscore_none, E.
Qed.

(** X2. The normalized identifier has a dot exactly when the raw one has a
    dot, an underscore or a lowercase letter followed by an uppercase one:
    an identifier of one plain word stays without a dot. *)
Theorem normalizeOperationId_dotted (s : string) :
  hasChar "." (normalizeOperationId s)
  = hasChar "." s || hasChar "_" s || hasBoundary s.
Proof.
  unfold normalizeOperationId. rewrite includes_dot_hasChar.
  destruct (hasChar "." s) eqn:D.
  - rewrite hasChar_toLowerCase by (left; cbv; lia). exact D.
  - cbv zeta. rewrite hasChar_replaceFirstUnderscore_dot.
    rewrite !hasChar_toLowerCase by ((left; cbv; lia) || (right; cbv; lia)).
    destruct (replaceCamel_transitions s) as [-> _].
    destruct (hasChar_insertDots s) as [-> ->]. rewrite D.
    simpl. apply orb_comm.
Qed.

(** ** Example synthesis: references, arrays and the fields of objects *)

Lemma reference_step (schema target : OpenApiSchema)
  (schemas : SchemaTable) (depth : Z) (propName : option string) :
  (depth <= 3)%Z ->
  pureReference schema = true ->
  obj_get schemas (refTarget schema) = Some target ->
  generateExampleFromSchema schema schemas depth propName
  = generateExampleFromSchema target schemas (depth + 1)%Z (Some (refTarget schema)).
Proof.
  intros Hd Hp Hg. unfold pureReference in Hp.
  apply andb_true_iff in Hp. destruct Hp as [He Hr].
  apply generateExample_resolved; try assumption.
  - destruct (schema_example schema); [discriminate | reflexivity].
  - unfold refTarget in Hg. unfold tableGet. rewrite Hg. reflexivity.
Qed.

Lemma array_step (schema items : OpenApiSchema)
  (schemas : SchemaTable) (depth : Z) (propName : option string) :
  (depth <= 3)%Z ->
  schema_example schema = None ->
  Js.truthyO (schema_ref schema) = false ->
  firstEnum schema = None ->
  typeIs schema "array" = true ->
  schema_items schema = Some items ->
  generateExampleFromSchema schema schemas depth propName
  = if truthyV (generateExampleFromSchema items schemas (depth + 1)%Z None)
    then JArr [generateExampleFromSchema items schemas (depth + 1)%Z None]
    else JArr [].
Proof.
  intros Hd He Hr Hn Ht Hi.
  assert (E : Some (generateExampleFromSchema schema schemas depth propName)
              = Some (if truthyV (generateExampleFromSchema items schemas
                                    (depth + 1)%Z None)
                      then JArr [generateExampleFromSchema items schemas
                                   (depth + 1)%Z None]
                      else JArr [])).
  { rewrite <- (generateExample_fuel_value schema schemas depth propName
                  (fuelFor depth) (le_n _)).
    rewrite (fuelFor_step depth Hd).
    cbn [generateExampleFromSchema_fuel].
    apply Z.ltb_ge in Hd. rewrite Hd, He, Hr, Hn, Ht, Hi.
    rewrite (generateExample_fuel_value items schemas (depth + 1)%Z None
               (fuelFor (depth + 1)) (le_n _)).
    reflexivity. }
  injection E as E. exact E.
Qed.

(** X3. A reference to a schema of the table yields the example of that
    schema, synthesized one level down with the name of the schema as the
    property name. *)
Theorem generateExample_reference (schema target : OpenApiSchema)
  (schemas : SchemaTable) (depth : Z) (propName : option string) :
  (depth <= 3)%Z ->
  pureReference schema = true ->
  obj_get schemas (refTarget schema) = Some target ->
  generateExampleFromSchema schema schemas depth propName
  = generateExampleFromSchema target schemas (depth + 1)%Z (Some (refTarget schema)).
Proof.
  intros Hd Hp Hg.
  apply reference_step; assumption.
Qed.

(** X4. An array schema yields one element, the example of its items one
    level down and without a property name, or no element when that
    example is falsy ([null], [false], [0] or the empty string). *)
Theorem generateExample_array (schema items : OpenApiSchema)
  (schemas : SchemaTable) (depth : Z) (propName : option string) :
  (depth <= 3)%Z ->
  schema_example schema = None ->
  Js.truthyO (schema_ref schema) = false ->
  firstEnum schema = None ->
  typeIs schema "array" = true ->
  schema_items schema = Some items ->
  generateExampleFromSchema schema schemas depth propName
  = if truthyV (generateExampleFromSchema items schemas (depth + 1)%Z None)
    then JArr [generateExampleFromSchema items schemas (depth + 1)%Z None]
    else JArr [].
Proof.
  intros Hd He Hr Hn Ht Hi.
  apply array_step; assumption.
Qed.

(** X5. In a table made of references to one another, every reference gives
    [null]: the chain is followed down to the ceiling and nothing else is
    ever found. *)
Theorem generateExample_alias_cycle (schemas : SchemaTable) :
  (forall name s, obj_get schemas name = Some s ->
     pureReference s = true /\ obj_get schemas (refTarget s) <> None) ->
  forall (schema : OpenApiSchema) (depth : Z) (propName : option string),
    pureReference schema = true ->
    obj_get schemas (refTarget schema) <> None ->
    generateExampleFromSchema schema schemas depth propName = JNull.
Proof.
  intros Hclosed.
  assert (G : forall n schema depth propName,
             (Z.to_nat (4 - depth) <= n)%nat ->
             pureReference schema = true ->
             obj_get schemas (refTarget schema) <> None ->
             generateExampleFromSchema schema schemas depth propName = JNull).
  { induction n as [|n IH]; intros schema depth propName Hn Hp Hg.
    - apply generateExample_past_ceiling. lia.
    - destruct (Z.ltb_spec 3 depth) as [Hd|Hd]; [apply generateExample_past_ceiling, Hd|].
      destruct (obj_get schemas (refTarget schema)) as [target|] eqn:Ht;
        [|congruence].
      rewrite (reference_step schema target schemas depth propName Hd Hp Ht).
      destruct (Hclosed _ _ Ht) as [Hp' Hg'].
      apply IH; [lia | exact Hp' | exact Hg']. }
  intros schema depth propName. apply (G (Z.to_nat (4 - depth))). lia.
Qed.

Lemma obj_store_In {A : Type} (o : list (string * A)) (k k' : string) (v v' : A) :
  In (k', v') (obj_store o k v) -> In (k', v') o \/ (k' = k /\ v' = v).
Proof.
  induction o as [|[k0 v0] r IH]; simpl.
  - intros [E|[]]. injection E as <- <-. right. split; reflexivity.
  - destruct (String.eqb k0 k) eqn:E.
    + apply String.eqb_eq in E. subst k0.
      intros [H|H]; [injection H as <- <-; right; split; reflexivity | left; right; exact H].
    + intros [H|H]; [left; left; exact H|].
      destruct (IH H) as [I|I]; [left; right; exact I | right; exact I].
Qed.

Lemma obj_set_In {A : Type} (o : list (string * A)) (k k' : string) (v v' : A) :
  In (k', v') (obj_set o k v) -> In (k', v') o \/ (k' = k /\ v' = v).
Proof.
  unfold obj_set. destruct (String.eqb k "__proto__");
    [intros H; left; exact H | apply obj_store_In].
Qed.

Lemma obj_set_NoDup {A : Type} (o : list (string * A)) (k : string) (v : A) :
  NoDup (obj_keys o) -> NoDup (obj_keys (obj_set o k v)).
Proof.
  intros H. rewrite obj_keys_set. destruct (addsNoKey o k) eqn:E; [exact H|].
  apply NoDup_app; [exact H | repeat constructor; intros [] | ].
  intros x Hx [Ek|[]]. subst x. exact (addsNoKey_fresh o k E Hx).
Qed.

(** What the loop over the properties puts into the object: a declared
    property with the value synthesized for it, never [null]; and no key
    twice. *)
Lemma exampleFields_sound (valueOf : OpenApiSchema -> option string -> JValue)
  (required : list string) (props : list (string * OpenApiSchema)) :
  forall obj out,
    exampleFields (fun s n => Some (valueOf s n)) required props obj = Some out ->
    (forall k v, In (k, v) out ->
       In (k, v) obj
       \/ exists ps, In (k, ps) props /\ v = valueOf ps (Some k) /\ v <> JNull)
    /\ (NoDup (obj_keys obj) -> NoDup (obj_keys out)).
Proof.
  induction props as [|[f ps] rest IH]; intros obj out H; simpl in H.
  - injection H as <-. split; auto.
  - destruct (has required f || (List.length obj <? 5)%nat).
    + destruct (isNull (valueOf ps (Some f))) eqn:N.
      * destruct (IH _ _ H) as [Hin Hnd]. split; [|exact Hnd].
        intros k v I. destruct (Hin k v I) as [J|(ps' & J & E & Hv)];
          [left; exact J | right; exists ps'; split; [right; exact J | split; assumption]].
      * destruct (IH _ _ H) as [Hin Hnd]. split.
        -- intros k v I. destruct (Hin k v I) as [J|(ps' & J & E & Hv)].
           ++ apply obj_set_In in J. destruct J as [J|[-> ->]]; [left; exact J|].
              right. exists ps. split; [left; reflexivity|]. split; [reflexivity|].
              intros C. rewrite C in N. discriminate.
           ++ right. exists ps'. split; [right; exact J | split; assumption].
        -- intros Hobj. apply Hnd, obj_set_NoDup, Hobj.
    + destruct (IH _ _ H) as [Hin Hnd]. split; [|exact Hnd].
      intros k v I. destruct (Hin k v I) as [J|(ps' & J & E & Hv)];
        [left; exact J | right; exists ps'; split; [right; exact J | split; assumption]].
Qed.

Lemma object_fields_sound
  (schema : OpenApiSchema) (schemas : SchemaTable) (depth : Z)
  (propName : option string) (props : list (string * OpenApiSchema)) :
  (depth <= 3)%Z ->
  reachesShape schema = true ->
  schema_properties schema = Some props ->
  exists fields,
    generateExampleFromSchema schema schemas depth propName = JObj fields
    /\ (forall k v, In (k, v) fields ->
          exists ps, In (k, ps) props
                     /\ v = generateExampleFromSchema ps schemas (depth + 1)%Z (Some k)
                     /\ v <> JNull)
    /\ NoDup (obj_keys fields).
Proof.
  intros Hd Hs Hp.
  assert (Ho : isObjectSchema schema = true).
  { unfold isObjectSchema. rewrite Hp. apply orb_true_r. }
  pose proof (generateExample_object schema schemas depth propName Hd Hs Ho) as E.
  rewrite Hp in E.
  destruct (exampleFields
              (fun s n => Some (generateExampleFromSchema s schemas (depth + 1)%Z n))
              (requiredOf schema) (objectEntries props) []) as [fields|] eqn:Hf;
    [|discriminate].
  simpl in E. injection E as E. exists fields. split; [exact E|].
  destruct (exampleFields_sound
              (fun s n => generateExampleFromSchema s schemas (depth + 1)%Z n)
              (requiredOf schema) (objectEntries props) [] fields Hf) as [Hin Hnd].
  split; [|apply Hnd; constructor].
  intros k v I. destruct (Hin k v I) as [[]|(ps & J & K)].
  exists ps. split; [apply objectEntries_In; exact J | exact K].
Qed.

(** X6. Every field of a synthesized object is a declared property, with the
    example of that property synthesized one level down under its own
    name; no field is [null] and no name comes twice. *)
Theorem generateExample_object_fields
  (schema : OpenApiSchema) (schemas : SchemaTable) (depth : Z)
  (propName : option string) (props : list (string * OpenApiSchema)) :
  (depth <= 3)%Z ->
  reachesShape schema = true ->
  schema_properties schema = Some props ->
  exists fields,
    generateExampleFromSchema schema schemas depth propName = JObj fields
    /\ (forall k v, In (k, v) fields ->
          exists ps, In (k, ps) props
                     /\ v = generateExampleFromSchema ps schemas (depth + 1)%Z (Some k)
                     /\ v <> JNull)
    /\ NoDup (obj_keys fields).
Proof.
  intros Hd Hs Hp.
  apply object_fields_sound; assumption.
Qed.

(** X7. At depth 3 nothing below is synthesized any more: an object schema
    yields the empty object whatever its properties, required or not, and
    an array schema the empty array whatever its items. *)
Theorem generateExample_last_level
  (schema : OpenApiSchema) (schemas : SchemaTable) (propName : option string) :
  (reachesShape schema = true ->
   isObjectSchema schema = true ->
   generateExampleFromSchema schema schemas 3 propName = JObj [])
  /\ (schema_example schema = None ->
      Js.truthyO (schema_ref schema) = false ->
      firstEnum schema = None ->
      typeIs schema "array" = true ->
      schema_items schema <> None ->
      generateExampleFromSchema schema schemas 3 propName = JArr []).
Proof.
  split.
  - intros H Ho.
    destruct (schema_properties schema) as [props|] eqn:Hp.
    + destruct (object_fields_sound schema schemas 3 propName props
                  (Z.le_refl 3) H Hp) as (fields & E & Hin & _).
      rewrite E. destruct fields as [|[k v] rest]; [reflexivity|].
      destruct (Hin k v (or_introl eq_refl)) as (ps & _ & Hv & Hn).
      exfalso. apply Hn. rewrite Hv.
      apply generateExample_past_ceiling. reflexivity.
    + pose proof (generateExample_object schema schemas 3 propName (Z.le_refl 3) H Ho) as E.
      rewrite Hp in E. injection E as E. exact E.
  - intros He Hr Hn Ht Hi.
    destruct (schema_items schema) as [items|] eqn:Ei; [|congruence].
    rewrite (array_step schema items schemas 3 propName
               (Z.le_refl 3) He Hr Hn Ht Ei).
    rewrite generateExample_past_ceiling by reflexivity. reflexivity.
Qed.

(** X8. A property whose own example is [null] (an unknown type, a schema
    past the ceiling, an example that is [null]) is left out of the
    object, also when it is required. *)
Theorem generateExample_null_property_omitted
  (schema : OpenApiSchema) (schemas : SchemaTable) (depth : Z)
  (propName : option string) (props : list (string * OpenApiSchema))
  (f : string) (ps : OpenApiSchema) :
  (depth <= 3)%Z ->
  reachesShape schema = true ->
  schema_properties schema = Some props ->
  NoDup (map fst props) ->
  In (f, ps) props ->
  generateExampleFromSchema ps schemas (depth + 1)%Z (Some f) = JNull ->
  exists fields,
    generateExampleFromSchema schema schemas depth propName = JObj fields
    /\ ~ In f (obj_keys fields).
Proof.
  intros Hd Hs Hp Hnd Hin Hnull.
  destruct (object_fields_sound schema schemas depth propName props Hd Hs Hp)
    as (fields & E & Hfields & _).
  exists fields. split; [exact E|].
  intros C. unfold obj_keys in C. apply in_map_iff in C.
  destruct C as ([k v] & Hk & I). simpl in Hk. subst k.
  destruct (Hfields f v I) as (ps' & I' & Hv & Hn).
  assert (ps' = ps).
  { clear - Hnd Hin I'. induction props as [|[k0 p0] rest IH]; [destruct Hin|].
    simpl in Hnd. inversion Hnd as [|? ? Hnotin Hnd']; subst.
    destruct Hin as [H|H], I' as [H'|H'].
    - congruence.
    - injection H as -> ->. exfalso. apply Hnotin.
      apply in_map_iff. exists (f, ps'). split; [reflexivity | exact H'].
    - injection H' as -> ->. exfalso. apply Hnotin.
      apply in_map_iff. exists (f, ps). split; [reflexivity | exact H].
    - apply IH; assumption. }
  subst ps'. apply Hn. rewrite Hv. exact Hnull.
Qed.

(** ** The scan of the global types *)

Lemma string_append_nil (s : string) : s ++ "" = s.
Proof. induction s as [|c r IH]; simpl; [reflexivity | rewrite IH; reflexivity]. Qed.

Lemma string_append_assoc (a b c : string) : (a ++ b) ++ c = a ++ b ++ c.
Proof. induction a as [|x r IH]; simpl; [reflexivity | rewrite IH; reflexivity]. Qed.

Lemma dropPrefix_append (p s : string) : Js.dropPrefix p (p ++ s) = Some s.
Proof.
  induction p as [|c r IH]; simpl; [destruct s; reflexivity|].
  rewrite Ascii.eqb_refl. exact IH.
Qed.

Lemma span_run (f : ascii -> bool) (w rest : string) :
  allChars f w = true -> headIs f rest = false -> span f (w ++ rest) = (w, rest).
Proof.
  intros Hw Hr. induction w as [|c r IH]; simpl.
  - destruct rest as [|d rest']; [reflexivity|]. simpl in *. rewrite Hr. reflexivity.
  - simpl in Hw. apply andb_true_iff in Hw. destruct Hw as [Hc Hw].
    rewrite Hc, (IH Hw). reflexivity.
Qed.

Lemma word_not_space (c : ascii) : Js.isWord c = true -> Js.isSpace c = false.
Proof.
  unfold Js.isWord, Js.isSpace, Js.isLowerAZ, Js.isUpperAZ, Js.between.
  intros H.
  assert (R : (48 <= Js.code c <= 122)%nat).
  { repeat (apply orb_true_iff in H; destruct H as [H|H]);
      try (apply andb_true_iff in H; destruct H as [H1 H2];
           apply Nat.leb_le in H1; apply Nat.leb_le in H2; lia).
    apply Nat.eqb_eq in H. lia. }
  repeat (apply orb_false_iff; split).
  - apply andb_false_iff. right. apply Nat.leb_gt. lia.
  - apply Nat.eqb_neq. lia.
  - apply Nat.eqb_neq. lia.
Qed.

Lemma matchDeclaration_head (kw spaces name rest : string) :
  allChars Js.isSpace spaces = true -> Js.truthy spaces = true ->
  allChars Js.isWord name = true -> Js.truthy name = true ->
  headIs Js.isWord rest = false ->
  matchDeclaration kw (kw ++ spaces ++ name ++ rest) = Some (kw ++ spaces ++ name).
Proof.
  intros Hs Ts Hn Tn Hr. unfold matchDeclaration.
  rewrite dropPrefix_append.
  rewrite (span_run Js.isSpace spaces (name ++ rest) Hs).
  - rewrite (span_run Js.isWord name rest Hn Hr). rewrite Ts, Tn. reflexivity.
  - destruct name as [|c n]; [discriminate|]. simpl in *.
    apply andb_true_iff in Hn. destruct Hn as [Hc _].
    apply word_not_space, Hc.
Qed.

Lemma matchAll_head (s m : string) :
  matchTypeDeclaration s = Some m ->
  exists others, matchAllTypeDeclarations 0 s = m :: others.
Proof.
  intros H. destruct s as [|c r]; [discriminate|].
  cbn [matchAllTypeDeclarations]. rewrite H. eauto.
Qed.

Lemma splitSpaces_skip (cur sp s : string) :
  allChars Js.isSpace sp = true ->
  splitSpaces cur true (sp ++ s) = splitSpaces cur true s.
Proof.
  intros H. induction sp as [|c r IH]; simpl; [reflexivity|].
  simpl in H. apply andb_true_iff in H. destruct H as [Hc Hr].
  rewrite Hc. apply IH, Hr.
Qed.

Lemma splitSpaces_word (w : string) :
  allChars Js.isWord w = true ->
  forall cur b s,
    Js.truthy w = true \/ b = false ->
    splitSpaces cur b (w ++ s) = splitSpaces (cur ++ w) false s.
Proof.
  induction w as [|c r IH]; intros H cur b s Hb.
  - destruct Hb as [Hb| ->]; [discriminate|]. simpl. rewrite string_append_nil. reflexivity.
  - simpl in H. apply andb_true_iff in H. destruct H as [Hc Hr].
    simpl. rewrite (word_not_space c Hc).
    rewrite (IH Hr _ false s (or_intror eq_refl)), string_append_assoc. reflexivity.
Qed.

Lemma declaredName_head (kw spaces name : string) :
  allChars Js.isWord kw = true -> Js.truthy kw = true ->
  allChars Js.isSpace spaces = true -> Js.truthy spaces = true ->
  allChars Js.isWord name = true -> Js.truthy name = true ->
  declaredName (kw ++ spaces ++ name) = name.
Proof.
  intros Hk Tk Hs Ts Hn Tn. unfold declaredName.
  rewrite (splitSpaces_word kw Hk "" false _ (or_introl Tk)).
  destruct spaces as [|c sp]; [discriminate|].
  simpl in Hs. apply andb_true_iff in Hs. destruct Hs as [Hc Hs].
  cbn [append splitSpaces]. rewrite Hc.
  rewrite (splitSpaces_skip "" sp name Hs).
  rewrite <- (string_append_nil name) at 1.
  rewrite (splitSpaces_word name Hn "" true "" (or_introl Tn)).
  reflexivity.
Qed.

(** X12. When the global types begin with a declaration [interface N] or
    [type N], every capability whose raw text contains [N] anywhere, as
    a word or inside another word, depends on [schemas/types]. *)
Theorem mapi_types_dependency_by_occurrence
  (cap : ParsedCapability) (doc : ParsedMapiDocument)
  (kw spaces name rest raw : string) :
  kw = "interface" \/ kw = "type" ->
  allChars Js.isSpace spaces = true -> Js.truthy spaces = true ->
  allChars Js.isWord name = true -> Js.truthy name = true ->
  headIs Js.isWord rest = false ->
  mapi_globalTypes doc = Some (kw ++ spaces ++ name ++ rest) ->
  cap_rawContent cap = Some raw ->
  Js.includes raw name = true ->
  In "schemas/types" (determineMapiDependencies cap doc).
Proof.
  intros Hkw Hs Ts Hn Tn Hr Hg Hraw Hinc.
  assert (Hm : matchTypeDeclaration (kw ++ spaces ++ name ++ rest)
               = Some (kw ++ spaces ++ name)).
  { unfold matchTypeDeclaration. destruct Hkw as [-> | ->].
    - rewrite (matchDeclaration_head "interface" spaces name rest Hs Ts Hn Tn Hr).
      reflexivity.
    - rewrite (matchDeclaration_head "type" spaces name rest Hs Ts Hn Tn Hr).
      reflexivity. }
  destruct (matchAll_head _ _ Hm) as [others Hall].
  assert (Hname : declaredName (kw ++ spaces ++ name) = name).
  { destruct Hkw as [-> | ->]; apply declaredName_head; auto. }
  assert (Tg : Js.truthy (kw ++ spaces ++ name ++ rest) = true).
  { destruct Hkw as [-> | ->]; reflexivity. }
  assert (Traw : Js.truthy raw = true).
  { destruct raw; [|reflexivity]. destruct name; discriminate. }
  unfold determineMapiDependencies. apply In_app_singleton. right.
  split; [|reflexivity].
  rewrite Hg, Hraw. unfold Js.truthyO, Js.orElse. rewrite Tg, Traw.
  unfold referencesGlobalType. rewrite Hall. cbn [map existsb].
  rewrite Hname, Hinc. reflexivity.
Qed.

(** ** Type descriptions, example blocks and dependency lists *)

Section Rendering.

Context {Ext : Externals}.

Lemma truthy_append (a b : string) : Js.truthy a = true -> Js.truthy (a ++ b) = true.
Proof. destruct a; [discriminate | reflexivity]. Qed.








Lemma keys_truthy (v : JValue) : (0 < keyCount v)%nat -> truthyV v = true.
Proof.
  destruct v as [| | |s| |]; simpl; intros H; try lia; try reflexivity.
  destruct s; [simpl in H; lia | reflexivity].
Qed.

Lemma exampleBlock_keys (title : string) (schema : option OpenApiSchema)
  (schemas : SchemaTable) :
  exampleBlock title schema schemas
  = match schema with
    | Some s =>
        if (0 <? exampleKeys schema schemas)%nat
        then [title; "```json";
              JSON_stringify (generateExampleFromSchema s schemas 0 None); "```"]
        else []
    | None => []
    end.
Proof.
  destruct schema as [s|]; [|reflexivity].
  unfold exampleBlock, exampleKeys.
  destruct (0 <? keyCount (generateExampleFromSchema s schemas 0 None))%nat eqn:K.
  - apply Nat.ltb_lt in K. rewrite (keys_truthy _ K). reflexivity.
  - rewrite andb_false_r. reflexivity.
Qed.

Lemma join_truthy (sep x : string) (rest : list string) :
  Js.truthy x = true -> Js.truthy (Js.join sep (x :: rest)) = true.
Proof.
  intros H. destruct rest; [exact H|].
  cbn [Js.join]. apply truthy_append, H.
Qed.

(** X10. An example is rendered exactly when the value synthesized for the
    request body or for the 200/201 response has keys: a non-empty object,
    array or string (the truthiness test beside it never decides).  An
    example that is a number or a boolean, an empty object or an empty
    array gives no block.  The text of the examples is never empty. *)
Theorem generateExample_rendered (op : ParsedOpenApiOperation)
  (doc : ParsedOpenApiDocument) :
  (generateExample op doc = None
   <-> exampleKeys (requestSchema op) (openapi_schemas doc) = 0%nat
       /\ exampleKeys (successSchema op ["200"; "201"]) (openapi_schemas doc) = 0%nat)
  /\ forall text, generateExample op doc = Some text -> Js.truthy text = true.
Proof.
  unfold generateExample. cbv zeta.
  rewrite !exampleBlock_keys.
  set (schemas := openapi_schemas doc).
  destruct (requestSchema op) as [rq|] eqn:Erq;
    destruct (successSchema op ["200"; "201"]) as [rs|] eqn:Ers;
    try destruct (0 <? exampleKeys (Some rq) schemas)%nat eqn:Krq;
    try destruct (0 <? exampleKeys (Some rs) schemas)%nat eqn:Krs;
    try (first [apply Nat.ltb_lt in Krq | apply Nat.ltb_ge in Krq]);
    try (first [apply Nat.ltb_lt in Krs | apply Nat.ltb_ge in Krs]);
    cbn [app exampleKeys] in *;
    (split;
     [ split; [intros H; try discriminate; split; lia
              | intros [H1 H2]; try reflexivity; exfalso; lia]
     | intros text H; try discriminate; injection H as <-; reflexivity ]).
Qed.

End Rendering.

(** X11. A dependency list is one of four: nothing, [auth], [schemas/types], or
    both with [auth] first; so it has no duplicate and names nothing
    else. *)
Theorem dependencies_shape :
  (forall (cap : ParsedCapability) (doc : ParsedMapiDocument),
     In (determineMapiDependencies cap doc)
       [[]; ["auth"]; ["schemas/types"]; ["auth"; "schemas/types"]])
  /\ (forall (op : ParsedOpenApiOperation) (doc : ParsedOpenApiDocument),
        In (determineOpenApiDependencies op doc)
          [[]; ["auth"]; ["schemas/types"]; ["auth"; "schemas/types"]]).
Proof.
  split; intros x doc.
  - unfold determineMapiDependencies.
    destruct (authRequired _ || _),
             (Js.truthyO (mapi_globalTypes doc) && _ && _);
      simpl; auto.
  - unfold determineOpenApiDependencies.
    destruct (hasSecurity x), (0 <? _)%nat; simpl; auto.
Qed.

(** ** The artifacts of a generation *)

Lemma obj_get_set_same {A : Type} (o : list (string * A)) (k : string) (v : A) :
  k <> "__proto__" -> obj_get (obj_set o k v) k = Some v.
Proof.
  intros N. unfold obj_set. apply String.eqb_neq in N. rewrite N.
  induction o as [|[k0 v0] r IH]; simpl.
  - rewrite String.eqb_refl. reflexivity.
  - destruct (String.eqb k0 k) eqn:E; simpl; rewrite E; [reflexivity | exact IH].
Qed.

Lemma obj_get_set_other {A : Type} (o : list (string * A)) (k k' : string) (v : A) :
  k' <> k -> obj_get (obj_set o k v) k' = obj_get o k'.
Proof.
  intros N. unfold obj_set.
  destruct (String.eqb k "__proto__"); [reflexivity|].
  induction o as [|[k0 v0] r IH]; simpl.
  - destruct (String.eqb k k') eqn:E; [|reflexivity].
    apply String.eqb_eq in E. congruence.
  - destruct (String.eqb k0 k) eqn:E; simpl.
    + apply String.eqb_eq in E. subst k0.
      destruct (String.eqb k k') eqn:E'; [|reflexivity].
      apply String.eqb_eq in E'. congruence.
    + rewrite IH. reflexivity.
Qed.

Lemma capabilityFileName_injective (a b : string) :
  capabilityFileName a = capabilityFileName b -> a = b.
Proof.
  unfold capabilityFileName. revert b.
  induction a as [|c r IH]; intros [|d b'] H.
  - reflexivity.
  - apply (f_equal String.length) in H. simpl in H.
    rewrite string_length_append in H. simpl in H. lia.
  - apply (f_equal String.length) in H. simpl in H.
    rewrite string_length_append in H. simpl in H. lia.
  - simpl in H. injection H as -> H. f_equal. apply IH, H.
Qed.

Lemma map_eq_In {A B C : Type} (f : A -> C) (g : B -> C) (l : list A) (l' : list B) :
  map f l = map g l' -> forall a, In a l -> exists b, In b l' /\ f a = g b.
Proof.
  revert l'. induction l as [|x r IH]; intros [|y r'] H a I; simpl in *;
    try discriminate; [destruct I|].
  injection H as Hx Hr. destruct I as [<-|I].
  - exists y. split; [left; reflexivity | exact Hx].
  - destruct (IH r' Hr a I) as (b & Ib & E). exists b. split; [right; exact Ib | exact E].
Qed.

Section Artifacts.

Context {Ext : Externals} {World : Type}.

Variable options : ConvertOptions World.

(** The capability files of a run of the OpenAPI loop. *)
Lemma openApiCapabilities_files (doc : ParsedOpenApiDocument)
  (ops : list ParsedOpenApiOperation) :
  forall acc w arts w',
    openApiCapabilities options doc ops acc w = (Some arts, w') ->
    (NoDup (obj_keys (art_capabilities acc)) ->
     NoDup (obj_keys (art_capabilities arts)))
    /\ (forall k, In k (obj_keys (art_capabilities arts)) ->
          In k (obj_keys (art_capabilities acc))
          \/ exists op, In op ops
                        /\ k = capabilityFileName (normalizeOperationId (op_operationId op)))
    /\ (forall pre op post,
          ops = (pre ++ op :: post)%list ->
          (forall later, In later post ->
             normalizeOperationId (op_operationId later)
             <> normalizeOperationId (op_operationId op)) ->
          obj_get (art_capabilities arts)
            (capabilityFileName (normalizeOperationId (op_operationId op)))
          = Some (generateCapabilityFromOperation op doc))
    /\ (forall k,
          (forall op, In op ops ->
             capabilityFileName (normalizeOperationId (op_operationId op)) <> k) ->
          obj_get (art_capabilities arts) k = obj_get (art_capabilities acc) k).
Proof.
  induction ops as [|op0 rest IH]; intros acc w arts w' H.
  - injection H as <- <-. repeat split; auto.
    intros [|? ?] ? ? E; discriminate.
  - cbn [openApiCapabilities] in H. unfold bind in H.
    destruct (openApiKeywords options op0 _ w) as [[keywords|] w1]; [|discriminate].
    apply IH in H. cbn [art_capabilities] in H.
    destruct H as (Hnd & Hkeys & Hlast & Hother).
    fold (capabilityFileName (normalizeOperationId (op_operationId op0))) in *.
    split; [|split; [|split]].
    + intros N. apply Hnd, obj_set_NoDup, N.
    + intros k I. destruct (Hkeys k I) as [J|(op & J & E)].
      * rewrite obj_keys_set in J.
        destruct (addsNoKey (art_capabilities acc) _); [left; exact J|].
        apply in_app_or in J. destruct J as [J|[<-|[]]]; [left; exact J|].
        right. exists op0. split; [left; reflexivity | reflexivity].
      * right. exists op. split; [right; exact J | exact E].
    + intros [|p pre] op post E Hlater.
      * injection E as <- <-.
        rewrite Hother; [apply obj_get_set_same, md_not_proto|].
        intros later I C. apply capabilityFileName_injective in C.
        apply (Hlater later I C).
      * injection E as <- ->. apply (Hlast pre op post eq_refl Hlater).
    + intros k Hk. rewrite Hother by (intros op I; apply Hk; right; exact I).
      apply obj_get_set_other. intros C. apply (Hk op0 (or_introl eq_refl)).
      symmetry. exact C.
Qed.

(** The same for the MAPI loop. *)
Lemma mapiCapabilities_files (doc : ParsedMapiDocument)
  (caps : list ParsedCapability) :
  forall acc w arts w',
    mapiCapabilities options doc caps acc w = (Some arts, w') ->
    (NoDup (obj_keys (art_capabilities acc)) ->
     NoDup (obj_keys (art_capabilities arts)))
    /\ (forall k, In k (obj_keys (art_capabilities arts)) ->
          In k (obj_keys (art_capabilities acc))
          \/ exists cap, In cap caps
                         /\ k = capabilityFileName (capmeta_id (cap_meta cap)))
    /\ (forall pre cap post,
          caps = (pre ++ cap :: post)%list ->
          (forall later, In later post ->
             capmeta_id (cap_meta later) <> capmeta_id (cap_meta cap)) ->
          obj_get (art_capabilities arts)
            (capabilityFileName (capmeta_id (cap_meta cap)))
          = Some (generateCapabilityFile cap))
    /\ (forall k,
          (forall cap, In cap caps ->
             capabilityFileName (capmeta_id (cap_meta cap)) <> k) ->
          obj_get (art_capabilities arts) k = obj_get (art_capabilities acc) k).
Proof.
  induction caps as [|cap0 rest IH]; intros acc w arts w' H.
  - injection H as <- <-. repeat split; auto.
    intros [|? ?] ? ? E; discriminate.
  - cbn [mapiCapabilities] in H. unfold bind in H.
    destruct (mapiKeywords options cap0 w) as [[keywords|] w1]; [|discriminate].
    apply IH in H. cbn [art_capabilities] in H.
    destruct H as (Hnd & Hkeys & Hlast & Hother).
    fold (capabilityFileName (capmeta_id (cap_meta cap0))) in *.
    split; [|split; [|split]].
    + intros N. apply Hnd, obj_set_NoDup, N.
    + intros k I. destruct (Hkeys k I) as [J|(cap & J & E)].
      * rewrite obj_keys_set in J.
        destruct (addsNoKey (art_capabilities acc) _); [left; exact J|].
        apply in_app_or in J. destruct J as [J|[<-|[]]]; [left; exact J|].
        right. exists cap0. split; [left; reflexivity | reflexivity].
      * right. exists cap. split; [right; exact J | exact E].
    + intros [|p pre] cap post E Hlater.
      * injection E as <- <-.
        rewrite Hother; [apply obj_get_set_same, md_not_proto|].
        intros later I C. apply capabilityFileName_injective in C.
        apply (Hlater later I C).
      * injection E as <- ->. apply (Hlast pre cap post eq_refl Hlater).
    + intros k Hk. rewrite Hother by (intros cap I; apply Hk; right; exact I).
      apply obj_get_set_other. intros C. apply (Hk cap0 (or_introl eq_refl)).
      symmetry. exact C.
Qed.

(** X13. The capability files of an OpenAPI generation that returns: every
    file name is the normalized identifier of an operation followed by
    [.md], no name comes twice, and the file of an identifier holds the
    text of the last operation with that identifier: when two operations
    normalize alike the earlier text is overwritten. *)
Theorem openApi_capability_files (doc : ParsedOpenApiDocument)
  (w w' : World) (out : SkillOutput) :
  generateSkillFromOpenApi doc options w = (Some out, w') ->
  NoDup (obj_keys (capabilities out))
  /\ (forall k, In k (obj_keys (capabilities out)) ->
        exists op, In op (openapi_operations doc)
                   /\ k = capabilityFileName (normalizeOperationId (op_operationId op)))
  /\ (forall pre op post,
        openapi_operations doc = (pre ++ op :: post)%list ->
        (forall later, In later post ->
           normalizeOperationId (op_operationId later)
           <> normalizeOperationId (op_operationId op)) ->
        obj_get (capabilities out)
          (capabilityFileName (normalizeOperationId (op_operationId op)))
        = Some (generateCapabilityFromOperation op doc)).
Proof.
  intros H. apply generateSkillFromOpenApi_inv in H.
  destruct H as (arts & Hloop & -> & _ & _).
  apply openApiCapabilities_files in Hloop.
  destruct Hloop as (Hnd & Hkeys & Hlast & _).
  split; [apply Hnd; constructor|]. split; [|exact Hlast].
  intros k I. destruct (Hkeys k I) as [[]|J]. exact J.
Qed.

(** X14. The capability files of a MAPI generation that returns: every
    file name is the identifier of a capability followed by [.md], no name
    comes twice, and the file of an identifier holds the text of the last
    capability with that identifier. *)
Theorem mapi_capability_files (doc : ParsedMapiDocument)
  (w w' : World) (out : SkillOutput) :
  generateSkillFromMapi doc options w = (Some out, w') ->
  NoDup (obj_keys (capabilities out))
  /\ (forall k, In k (obj_keys (capabilities out)) ->
        exists cap, In cap (mapi_capabilities doc)
                    /\ k = capabilityFileName (capmeta_id (cap_meta cap)))
  /\ (forall pre cap post,
        mapi_capabilities doc = (pre ++ cap :: post)%list ->
        (forall later, In later post ->
           capmeta_id (cap_meta later) <> capmeta_id (cap_meta cap)) ->
        obj_get (capabilities out)
          (capabilityFileName (capmeta_id (cap_meta cap)))
        = Some (generateCapabilityFile cap)).
Proof.
  intros H. apply generateSkillFromMapi_inv in H.
  destruct H as (arts & Hloop & -> & _ & _).
  apply mapiCapabilities_files in Hloop.
  destruct Hloop as (Hnd & Hkeys & Hlast & _).
  split; [apply Hnd; constructor|]. split; [|exact Hlast].
  intros k I. destruct (Hkeys k I) as [[]|J]. exact J.
Qed.

(** X15. Every [schemas/types] dependency of the index is backed by the common
    file [schemas/types.md], for both generators. *)
Theorem types_dependency_has_common_file :
  (forall (doc : ParsedMapiDocument) (w w' : World) (out : SkillOutput),
     generateSkillFromMapi doc options w = (Some out, w') ->
     exists arts,
       mapiCapabilities options doc (mapi_capabilities doc) (mkArtifacts [] []) w
       = (Some arts, w')
       /\ forall e, In e (art_index arts) ->
            In "schemas/types" (entry_dependencies e) ->
            In "schemas/types.md" (obj_keys (common out)))
  /\ (forall (doc : ParsedOpenApiDocument) (w w' : World) (out : SkillOutput),
        generateSkillFromOpenApi doc options w = (Some out, w') ->
        exists arts,
          openApiCapabilities options doc (openapi_operations doc)
            (mkArtifacts [] []) w
          = (Some arts, w')
          /\ forall e, In e (art_index arts) ->
               In "schemas/types" (entry_dependencies e) ->
               In "schemas/types.md" (obj_keys (common out))).
Proof.
  split; intros doc w w' out H.
  - apply generateSkillFromMapi_inv in H.
    destruct H as (arts & Hloop & _ & -> & _).
    exists arts. split; [exact Hloop|].
    apply mapiCapabilities_spec in Hloop.
    destruct Hloop as (added & Hi & _ & Hdeps & _). cbn [art_index app] in Hi.
    rewrite Hi. intros e I D.
    destruct (map_eq_In _ _ _ _ Hdeps e I) as (cap & _ & E).
    rewrite E in D. unfold determineMapiDependencies in D.
    apply In_app_singleton in D. destruct D as [[_ D]|[D _]]; [discriminate|].
    apply andb_true_iff in D. destruct D as [D _].
    apply andb_true_iff in D. destruct D as [D _].
    unfold mapiCommon. rewrite D. apply obj_set_keeps; [discriminate | right; reflexivity].
  - apply generateSkillFromOpenApi_inv in H.
    destruct H as (arts & Hloop & _ & -> & _).
    exists arts. split; [exact Hloop|].
    apply openApiCapabilities_spec in Hloop.
    destruct Hloop as (added & Hi & _ & Hdeps & _). cbn [art_index app] in Hi.
    rewrite Hi. intros e I D.
    destruct (map_eq_In _ _ _ _ Hdeps e I) as (op & _ & E).
    rewrite E in D. unfold determineOpenApiDependencies in D.
    apply In_app_singleton in D. destruct D as [[_ D]|[D _]]; [discriminate|].
    unfold openApiCommon. rewrite D. apply obj_set_keeps; [discriminate | right; reflexivity].
Qed.

End Artifacts.

(** ** The keyword provider *)

Section Provider.

Context {Ext : Externals} {World : Type}.

Variable options : ConvertOptions World.

Lemma openApiCapabilities_local (doc : ParsedOpenApiDocument)
  (ops : list ParsedOpenApiOperation) :
  intentGenerator options = None ->
  forall acc w,
    exists files,
      openApiCapabilities options doc ops acc w
      = (Some (mkArtifacts files
                 (art_index acc
                  ++ map (fun op => openApiEntry doc op (extractOpenApiIntentKeywords op))
                       ops)%list), w).
Proof.
  intros Hnone. induction ops as [|op rest IH]; intros acc w.
  - exists (art_capabilities acc). simpl. rewrite app_nil_r.
    destruct acc; reflexivity.
  - cbn [openApiCapabilities]. unfold bind, openApiKeywords. rewrite Hnone.
    unfold ret at 1. cbv iota beta.
    match goal with
    | |- context [openApiCapabilities options doc rest ?a w] =>
        destruct (IH a w) as [files ->]
    end.
    exists files. cbn [art_index map]. rewrite <- app_assoc. reflexivity.
Qed.

Lemma mapiCapabilities_local (doc : ParsedMapiDocument)
  (caps : list ParsedCapability) :
  intentGenerator options = None
  \/ (forall cap, In cap caps -> Js.truthyO (cap_intention cap) = false) ->
  forall acc w,
    exists files,
      mapiCapabilities options doc caps acc w
      = (Some (mkArtifacts files
                 (art_index acc
                  ++ map (fun cap =>
                            mapiEntry doc cap
                              (extractIntentKeywords
                                 (Js.orElse (cap_intention cap) (cap_name cap))
                                 (capmeta_id (cap_meta cap))))
                       caps)%list), w)
      /\ mapiCapabilities (withoutProvider options) doc caps acc w
         = mapiCapabilities options doc caps acc w.
Proof.
  induction caps as [|cap rest IH]; intros Hlocal acc w.
  - exists (art_capabilities acc). simpl. rewrite app_nil_r.
    destruct acc; split; reflexivity.
  - assert (Hk : forall u, mapiKeywords options cap u
                           = (Some (extractIntentKeywords
                                      (Js.orElse (cap_intention cap) (cap_name cap))
                                      (capmeta_id (cap_meta cap))), u)).
    { intros u. unfold mapiKeywords.
      destruct (intentGenerator options) as [g|] eqn:G; [|reflexivity].
      destruct Hlocal as [C|Hall]; [discriminate|].
      rewrite (Hall cap (or_introl eq_refl)). reflexivity. }
    assert (Hrest : intentGenerator options = None
                    \/ (forall c, In c rest -> Js.truthyO (cap_intention c) = false)).
    { destruct Hlocal as [C|Hall]; [left; exact C | right].
      intros c I. apply Hall. right. exact I. }
    cbn [mapiCapabilities]. unfold bind. rewrite Hk.
    change (mapiKeywords (withoutProvider options) cap w)
      with (ret (World := World)
              (extractIntentKeywords (Js.orElse (cap_intention cap) (cap_name cap))
                 (capmeta_id (cap_meta cap))) w).
    unfold ret at 1. cbv iota beta.
    match goal with
    | |- context [mapiCapabilities options doc rest ?a w] =>
        destruct (IH Hrest a w) as (files & E & Eq)
    end.
    exists files. rewrite Eq, E. cbn [art_index map]. rewrite <- app_assoc.
    split; reflexivity.
Qed.

(** X16. Without a keyword provider a generation always returns and leaves the
    world as it was; its index document is rendered from one entry per
    capability or operation, in document order, with the keywords of the
    local extractor. *)
Theorem generation_without_provider :
  intentGenerator options = None ->
  (forall (doc : ParsedMapiDocument) (w : World),
     exists out,
       generateSkillFromMapi doc options w = (Some out, w)
       /\ common out = mapiCommon doc
       /\ skillMd out
          = generateSkillMd (Js.orElse (apiName options) (mapi_title doc))
              (mapi_description doc) (mapi_meta doc)
              (map (fun cap =>
                      mapiEntry doc cap
                        (extractIntentKeywords
                           (Js.orElse (cap_intention cap) (cap_name cap))
                           (capmeta_id (cap_meta cap))))
                 (mapi_capabilities doc))
              (obj_keys (mapiCommon doc)))
  /\ (forall (doc : ParsedOpenApiDocument) (w : World),
        exists out,
          generateSkillFromOpenApi doc options w = (Some out, w)
          /\ common out = openApiCommon doc
          /\ skillMd out
             = generateSkillMd (Js.orElse (apiName options) (openapi_title doc))
                 (openapi_description doc) (openApiMeta doc)
                 (map (fun op => openApiEntry doc op (extractOpenApiIntentKeywords op))
                    (openapi_operations doc))
                 (obj_keys (openApiCommon doc))).
Proof.
  intros Hnone. split; intros doc w.
  - destruct (mapiCapabilities_local doc (mapi_capabilities doc) (or_introl Hnone)
                (mkArtifacts [] []) w) as (files & E & _).
    unfold generateSkillFromMapi, bind. rewrite E.
    eexists. split; [reflexivity|]. split; reflexivity.
  - destruct (openApiCapabilities_local doc (openapi_operations doc) Hnone
                (mkArtifacts [] []) w) as [files E].
    unfold generateSkillFromOpenApi, bind. rewrite E.
    eexists. split; [reflexivity|]. split; reflexivity.
Qed.

(** X17. For a MAPI document the provider is asked only about capabilities
    with an intention: when no capability has one, the generation is the
    one without a provider, and the world is left as it was. *)
Theorem mapi_provider_needs_intention (doc : ParsedMapiDocument) (w : World) :
  (forall cap, In cap (mapi_capabilities doc) ->
     Js.truthyO (cap_intention cap) = false) ->
  generateSkillFromMapi doc options w
  = generateSkillFromMapi doc (withoutProvider options) w
  /\ snd (generateSkillFromMapi doc options w) = w.
Proof.
  intros Hall.
  destruct (mapiCapabilities_local doc (mapi_capabilities doc) (or_intror Hall)
              (mkArtifacts [] []) w) as (files & E & Eq).
  unfold generateSkillFromMapi, bind. rewrite Eq, E. split; reflexivity.
Qed.

(** X18. With a provider whose answer depends on its arguments only, a
    generation gives no result exactly when the provider rejects one of
    the calls: for OpenAPI one call per operation, with the normalized
    identifier and the description, summary or raw identifier; for MAPI
    one call per capability that has an intention. *)
Theorem generation_fails_with_provider
  (generate : IntentGenerator World)
  (answer : string -> string -> option (list string)) :
  intentGenerator options = Some generate ->
  (forall id description w, fst (generate id description w) = answer id description) ->
  (forall (doc : ParsedOpenApiDocument) (w : World),
     fst (generateSkillFromOpenApi doc options w) = None
     <-> exists op, In op (openapi_operations doc)
                    /\ answer (normalizeOperationId (op_operationId op))
                         (operationDescription op) = None)
  /\ (forall (doc : ParsedMapiDocument) (w : World),
        fst (generateSkillFromMapi doc options w) = None
        <-> exists cap, In cap (mapi_capabilities doc)
                        /\ Js.truthyO (cap_intention cap) = true
                        /\ answer (capmeta_id (cap_meta cap))
                             (Js.orElse (cap_intention cap) "") = None).
Proof.
  intros Hg Ha. split; intros doc w.
  - assert (L : forall ops acc u,
               fst (openApiCapabilities options doc ops acc u) = None
               <-> exists op, In op ops
                              /\ answer (normalizeOperationId (op_operationId op))
                                   (operationDescription op) = None).
    { induction ops as [|op rest IH]; intros acc u.
      - simpl. split; [discriminate | intros (? & [] & _)].
      - cbn [openApiCapabilities]. unfold bind, openApiKeywords. rewrite Hg.
        fold (operationDescription op).
        pose proof (Ha (normalizeOperationId (op_operationId op))
                      (operationDescription op) u) as A.
        destruct (generate _ _ u) as [[kw|] u1]; simpl in A.
        + rewrite IH. split.
          * intros (o & I & E). exists o. split; [right; exact I | exact E].
          * intros (o & [<-|I] & E); [congruence|]. exists o. split; assumption.
        + split; [|reflexivity]. intros _. exists op.
          split; [left; reflexivity | symmetry; exact A]. }
    unfold generateSkillFromOpenApi, bind.
    rewrite <- (L (openapi_operations doc) (mkArtifacts [] []) w).
    destruct (openApiCapabilities options doc _ _ w) as [[arts|] u]; simpl;
      split; intros H; try discriminate; reflexivity.
  - assert (L : forall caps acc u,
               fst (mapiCapabilities options doc caps acc u) = None
               <-> exists cap, In cap caps
                               /\ Js.truthyO (cap_intention cap) = true
                               /\ answer (capmeta_id (cap_meta cap))
                                    (Js.orElse (cap_intention cap) "") = None).
    { induction caps as [|cap rest IH]; intros acc u.
      - simpl. split; [discriminate | intros (? & [] & _)].
      - cbn [mapiCapabilities]. unfold bind, mapiKeywords. rewrite Hg.
        destruct (Js.truthyO (cap_intention cap)) eqn:T.
        + pose proof (Ha (capmeta_id (cap_meta cap))
                        (Js.orElse (cap_intention cap) "") u) as A.
          destruct (generate _ _ u) as [[kw|] u1]; simpl in A.
          * rewrite IH. split.
            -- intros (c & I & E). exists c. split; [right; exact I | exact E].
            -- intros (c & [<-|I] & Tc & E); [congruence|].
               exists c. split; [exact I | split; assumption].
          * split; [|reflexivity]. intros _. exists cap.
            split; [left; reflexivity|]. split; [exact T | symmetry; exact A].
        + unfold ret at 1. cbv iota beta. rewrite IH. split.
          * intros (c & I & E). exists c. split; [right; exact I | exact E].
          * intros (c & [<-|I] & Tc & E); [congruence|].
            exists c. split; [exact I | split; assumption]. }
    unfold generateSkillFromMapi, bind.
    rewrite <- (L (mapi_capabilities doc) (mkArtifacts [] []) w).
    destruct (mapiCapabilities options doc _ _ w) as [[arts|] u]; simpl;
      split; intros H; try discriminate; reflexivity.
Qed.

End Provider.

(** * The further properties at sample inputs *)

(** A reference to the schema [Role], a string: the name of the schema
    decides the example. *)
Lemma generateExample_reference_witness :
  generateExampleFromSchema (Sample.refTo "Role") Fixture.roleTable 0 None
  = JStr "user".
Proof.
  rewrite (generateExample_reference (Sample.refTo "Role") (Sample.typed "string")
             Fixture.roleTable 0 None (Zle_bool_imp_le 0 3 eq_refl) eq_refl eq_refl).
  reflexivity.
Defined.

(** An array of integers from 0 has no element, an array of strings has
    one. *)
Lemma generateExample_array_witness :
  generateExampleFromSchema (Fixture.arrayOf (Sample.integerFrom 0)) [] 0 None
  = JArr []
  /\ generateExampleFromSchema (Fixture.arrayOf (Sample.typed "string")) [] 0 None
     = JArr [JStr "string"].
Proof.
  split.
  - rewrite (generateExample_array (Fixture.arrayOf (Sample.integerFrom 0))
               (Sample.integerFrom 0) [] 0 None
               (Zle_bool_imp_le 0 3 eq_refl) eq_refl eq_refl eq_refl eq_refl eq_refl).
    reflexivity.
  - rewrite (generateExample_array (Fixture.arrayOf (Sample.typed "string"))
               (Sample.typed "string") [] 0 None
               (Zle_bool_imp_le 0 3 eq_refl) eq_refl eq_refl eq_refl eq_refl eq_refl).
    reflexivity.
Defined.

Lemma generateExample_alias_cycle_witness :
  generateExampleFromSchema (Sample.refTo "A") Fixture.aliasTable 0 (Some "owner")
  = JNull.
Proof.
  apply (generateExample_alias_cycle Fixture.aliasTable).
  - intros name s H. unfold Fixture.aliasTable in H. cbn [obj_get] in H.
    destruct (String.eqb "A" name); [injection H as <-; split; [reflexivity | discriminate]|].
    destruct (String.eqb "B" name); [injection H as <-; split; [reflexivity | discriminate]|].
    discriminate.
  - reflexivity.
  - discriminate.
Defined.

Lemma generateExample_object_fields_witness :
  exists fields,
    generateExampleFromSchema Sample.optionalFirst [] 0 None = JObj fields
    /\ (forall k v, In (k, v) fields -> v <> JNull)
    /\ NoDup (obj_keys fields).
Proof.
  destruct (generateExample_object_fields Sample.optionalFirst [] 0 None
              (Sample.optionalProps ++ Sample.requiredProps)%list
              (Zle_bool_imp_le 0 3 eq_refl) eq_refl eq_refl)
    as (fields & E & Hin & Hnd).
  exists fields. split; [exact E|]. split; [|exact Hnd].
  intros k v I. destruct (Hin k v I) as (_ & _ & _ & Hn). exact Hn.
Defined.

Lemma generateExample_last_level_witness :
  generateExampleFromSchema Sample.requiredFirst [] 3 None = JObj []
  /\ generateExampleFromSchema (Fixture.arrayOf (Sample.typed "string")) [] 3 None
     = JArr [].
Proof.
  split.
  - apply (generateExample_last_level Sample.requiredFirst [] None); reflexivity.
  - apply (generateExample_last_level (Fixture.arrayOf (Sample.typed "string")) [] None);
      try reflexivity.
    discriminate.
Defined.

(** The required property without a type is left out. *)
Lemma generateExample_null_property_witness :
  exists fields,
    generateExampleFromSchema Fixture.withUntyped [] 0 None = JObj fields
    /\ ~ In "payload" (obj_keys fields).
Proof.
  apply (generateExample_null_property_omitted Fixture.withUntyped [] 0 None
           [("payload", Sample.noSchema); ("label", Sample.typed "string")]
           "payload" Sample.noSchema (Zle_bool_imp_le 0 3 eq_refl) eq_refl eq_refl).
  - simpl. repeat constructor; simpl; intuition discriminate.
  - left. reflexivity.
  - reflexivity.
Defined.


(** A request body that is an integer has an example, 100, and no example
    block: a number has no keys. *)
Lemma generateExample_rendered_witness :
  @generateExample Sample.externals
    (Fixture.operationWithBody (Sample.typed "integer")) Sample.schemaDoc = None.
Proof.
  apply (@generateExample_rendered Sample.externals
           (Fixture.operationWithBody (Sample.typed "integer")) Sample.schemaDoc).
  split; reflexivity.
Defined.

(** [Id] is declared and [Identifier] is in the text. *)
Lemma mapi_types_dependency_witness :
  In "schemas/types"
    (determineMapiDependencies Fixture.identifierCapability Fixture.typedMapiDoc).
Proof.
  apply (mapi_types_dependency_by_occurrence Fixture.identifierCapability
           Fixture.typedMapiDoc "interface" " " "Id" " { value: string }"
           "Returns the Identifier of the item.");
    solve [reflexivity | left; reflexivity].
Defined.

(** [getUser] and [get_user] share the file [get.user.md]; it holds the
    text of the second. *)
Lemma openApi_capability_files_witness :
  exists out,
    @generateSkillFromOpenApi Sample.externals unit Sample.openApiDoc
      Sample.noProvider tt = (Some out, tt)
    /\ obj_keys (capabilities out) = ["get.user.md"]
    /\ obj_get (capabilities out) "get.user.md"
       = Some (@generateCapabilityFromOperation Sample.externals
                 (Sample.operation "get_user" None) Sample.openApiDoc).
Proof.
  eexists. split; [vm_compute; reflexivity|]. split; [reflexivity|].
  destruct (@openApi_capability_files Sample.externals unit Sample.noProvider
              Sample.openApiDoc tt tt _ ltac:(vm_compute; reflexivity))
    as (_ & _ & Hlast).
  apply (Hlast [Sample.operation "getUser" None] (Sample.operation "get_user" None)
           [] eq_refl).
  intros later [].
Defined.

Lemma mapi_capability_files_witness :
  exists out,
    @generateSkillFromMapi Sample.externals unit Sample.mapiDoc
      Sample.noProvider tt = (Some out, tt)
    /\ NoDup (obj_keys (capabilities out))
    /\ obj_get (capabilities out) (capabilityFileName "namespace.action")
       = Some (@generateCapabilityFile
                 (Sample.capability "namespace.action" None)).
Proof.
  eexists. split; [vm_compute; reflexivity|].
  destruct (@mapi_capability_files Sample.externals unit Sample.noProvider
              Sample.mapiDoc tt tt _ ltac:(vm_compute; reflexivity))
    as (Hnd & _ & Hlast).
  split; [exact Hnd|].
  apply (Hlast [] (Sample.capability "namespace.action" None)
           [Sample.capability "namespace.other" None] eq_refl).
  intros later [<-|[]]. discriminate.
Defined.

Lemma types_dependency_has_common_file_witness :
  exists out arts,
    @generateSkillFromOpenApi Sample.externals unit Sample.schemaDoc
      Sample.noProvider tt = (Some out, tt)
    /\ @openApiCapabilities Sample.externals unit Sample.noProvider Sample.schemaDoc
         (openapi_operations Sample.schemaDoc) (mkArtifacts [] []) tt
       = (Some arts, tt)
    /\ (forall e, In e (art_index arts) ->
          In "schemas/types" (entry_dependencies e) ->
          In "schemas/types.md" (obj_keys (common out))).
Proof.
  destruct (@types_dependency_has_common_file Sample.externals unit Sample.noProvider)
    as [_ Hopenapi].
  eexists.
  edestruct (Hopenapi Sample.schemaDoc tt tt) as (arts & Hloop & Hdeps);
    [vm_compute; reflexivity|].
  exists arts. split; [reflexivity|]. split; [exact Hloop | exact Hdeps].
Defined.

Lemma generation_without_provider_witness :
  exists out,
    @generateSkillFromOpenApi Sample.externals unit Sample.openApiDoc
      Sample.noProvider tt = (Some out, tt).
Proof.
  destruct (@generation_without_provider Sample.externals unit Sample.noProvider
              eq_refl) as [_ Hopenapi].
  destruct (Hopenapi Sample.openApiDoc tt) as (out & E & _).
  exists out. exact E.
Defined.

(** No capability has an intention: the rejecting provider is never
    asked. *)
Lemma mapi_provider_needs_intention_witness :
  @generateSkillFromMapi Sample.externals nat Fixture.plainMapiDoc
    Fixture.withRejecting 0%nat
  = @generateSkillFromMapi Sample.externals nat Fixture.plainMapiDoc
      (withoutProvider Fixture.withRejecting) 0%nat
  /\ snd (@generateSkillFromMapi Sample.externals nat Fixture.plainMapiDoc
            Fixture.withRejecting 0%nat) = 0%nat.
Proof.
  apply (@mapi_provider_needs_intention Sample.externals nat Fixture.withRejecting
           Fixture.plainMapiDoc 0%nat).
  intros cap [<-|[<-|[]]]; reflexivity.
Defined.

(** The provider rejects [get.user]: no result for the document with
    [getUser]. *)
Lemma generation_fails_with_provider_witness :
  fst (@generateSkillFromOpenApi Sample.externals nat Sample.openApiDoc
         Fixture.withRejecting 0%nat) = None.
Proof.
  destruct (@generation_fails_with_provider Sample.externals nat Fixture.withRejecting
              Fixture.rejecting
              (fun id description =>
                 if String.eqb id "get.user" then None else Some [id; description])
              eq_refl (fun id description w => eq_refl)) as [Hopenapi _].
  apply Hopenapi. exists (Sample.operation "getUser" None).
  split; [left; reflexivity | reflexivity].
Defined.
